(** * edtech_tracker: the persistence store, the account and progress services

    A shallow embedding of [edtech_tracker.py].  The SQLite file is a record of
    three tables kept in row order, every SQL statement the services issue is a
    constructor of [query], and the Python functions are written in a small
    state-and-exception monad over the [world]: the database file, the
    connections that are currently open, and the clock SQLite reads for
    [CURRENT_TIMESTAMP].  What else comes from outside the program is an
    argument: the salt passlib draws, the choice the user makes in a select
    box. *)

From Stdlib Require Import ZArith QArith List String Bool Lia Floats.
From Stdlib Require Import Sorted.
From Stdlib Require Ascii.
Import ListNotations.

Local Open Scope string_scope.
Local Open Scope list_scope.
Local Open Scope Z_scope.

(** ** Constants *)

Definition DEFAULT_ADMIN_USER : string := "admin".
Definition DEFAULT_ADMIN_PASS : string := "admin123".

(** ** passlib

    The computations of [pbkdf2_sha256] belong to passlib, so they are an
    interface here: the encoded hash of a password under a salt, whether a
    stored value parses as such a hash, and whether a password matches a
    parsed hash.  What [pbkdf2_sha256.hash] and [pbkdf2_sha256.verify] do
    around them (the size check on the secret, the error on a malformed hash)
    is written out below as [hash_password] and [verify_password]. *)

Class Passlib : Type := {
  pbkdf2_sha256_hash : string -> string -> string;   (* salt, password *)
  pbkdf2_sha256_identify : string -> bool;           (* stored value *)
  pbkdf2_sha256_verify : string -> string -> bool    (* password, stored hash *)
}.

(** passlib's [MAX_PASSWORD_SIZE], the largest [len(secret)] it accepts. *)
Definition MAX_PASSWORD_SIZE : Z := 4096.

(** [len(s)] of a Python [str]: the strings here are its UTF-8 bytes, and a
    character is every byte that is not a continuation byte. *)
Definition is_continuation_byte (c : Ascii.ascii) : bool :=
  (128 <=? Z.of_N (Ascii.N_of_ascii c)) && (Z.of_N (Ascii.N_of_ascii c) <? 192).

Fixpoint char_length (s : string) : Z :=
  match s with
  | EmptyString => 0
  | String c rest => (if is_continuation_byte c then 0 else 1) + char_length rest
  end.

Definition too_long (secret : string) : bool := MAX_PASSWORD_SIZE <? char_length secret.

(** ** Tables *)

Definition timestamp := Z.

Record user_row : Type := mk_user {
  u_id : Z;
  u_username : string;
  u_password : string;
  u_role : string;
  u_created_at : timestamp
}.

Record progress_row : Type := mk_progress {
  p_id : Z;
  p_user_id : Z;
  p_subject : string;
  p_chapter_name : string;
  p_component : string;
  p_status : string;
  p_updated_at : timestamp
}.

Record audit_row : Type := mk_audit {
  a_id : Z;
  a_user_id : Z;
  a_action : string;
  a_details : string;
  a_timestamp : timestamp
}.

(** The database file.  [seq_users], [seq_progress] and [seq_audit] are the rows
    of [sqlite_sequence] that [AUTOINCREMENT] maintains.  A file that does not
    exist yet, and one whose tables were just created, is [empty_db]. *)
Record database : Type := mk_db {
  users : list user_row;
  progress : list progress_row;
  audit_logs : list audit_row;
  seq_users : Z;
  seq_progress : Z;
  seq_audit : Z
}.

Definition empty_db : database := mk_db [] [] [] 0 0 0.

Definition max_id (ids : list Z) : Z := fold_right Z.max 0 ids.

(** [INTEGER PRIMARY KEY AUTOINCREMENT]: one more than the largest rowid the
    table holds or has ever held. *)
Definition next_rowid (seq : Z) (ids : list Z) : Z := Z.max seq (max_id ids) + 1.

(** ** Statements

    One constructor per SQL text of the source, its [?] parameters as
    arguments; the index is the type of a fetched row (a one-column row is its
    only cell). *)

Inductive query : Type -> Type :=
| SelectCountUsers : query Z
| SelectUserByUsername (username : string) : query (Z * string * string * string)
| InsertUser (username password role : string) : query unit
| InsertAuditLog (user_id : Z) (action details : string) : query unit
| SelectCountFait (user_id : Z) : query Z
| SelectStatus (user_id : Z) (subject chapter_name component : string) : query string
| SelectProgressId (user_id : Z) (subject chapter_name component : string) : query Z
| UpdateProgress (status : string) (id : Z) : query unit
| InsertProgress (user_id : Z) (subject chapter_name component status : string) : query unit.

Inductive exn : Type :=
| IntegrityError
| ValueError
| PasswordSizeError.

Inductive result (A : Type) : Type :=
| Ok (a : A)
| Raise (e : exn).
Arguments Ok {A} a.
Arguments Raise {A} e.

(** [pbkdf2_sha256.hash(secret)]: the secret is validated first, and one over
    the size limit raises; [salt] is the salt the call draws. *)
Definition hash_password {P : Passlib} (salt secret : string) : result string :=
  if too_long secret
  then Raise PasswordSizeError
  else Ok (pbkdf2_sha256_hash salt secret).

(** [pbkdf2_sha256.verify(secret, hash)]: the secret is validated, then the
    stored value is parsed, which raises a [ValueError] when it is not a
    pbkdf2-sha256 hash, then the digests are compared. *)
Definition verify_password {P : Passlib} (secret stored : string) : result bool :=
  if too_long secret
  then Raise PasswordSizeError
  else if pbkdf2_sha256_identify stored
       then Ok (pbkdf2_sha256_verify secret stored)
       else Raise ValueError.

(** The library's contract: a password within the size limit verifies against
    its own hash. *)
Class PasslibSound (P : Passlib) : Prop :=
  verify_hash : forall salt password,
    char_length password <= MAX_PASSWORD_SIZE ->
    verify_password password (pbkdf2_sha256_hash salt password) = Ok true.

(** [WHERE user_id=? AND subject=? AND chapter_name=? AND component=?] *)
Definition has_key (user_id : Z) (subject chapter_name component : string)
    (r : progress_row) : bool :=
  (p_user_id r =? user_id) && (p_subject r =? subject)%string
  && (p_chapter_name r =? chapter_name)%string && (p_component r =? component)%string.

(** [WHERE user_id = ? AND status = 'Fait'] *)
Definition is_fait (user_id : Z) (r : progress_row) : bool :=
  (p_user_id r =? user_id) && (p_status r =? "Fait")%string.

Definition has_username (username : string) (r : user_row) : bool :=
  (u_username r =? username)%string.

(** [SET status=?, updated_at=CURRENT_TIMESTAMP WHERE id=?] on one row. *)
Definition set_status_where_id (now : timestamp) (status : string) (id : Z)
    (r : progress_row) : progress_row :=
  if p_id r =? id
  then mk_progress (p_id r) (p_user_id r) (p_subject r) (p_chapter_name r)
         (p_component r) status now
  else r.

Definition with_users (db : database) (us : list user_row) (seq : Z) : database :=
  mk_db us (progress db) (audit_logs db) seq (seq_progress db) (seq_audit db).

Definition with_progress (db : database) (ps : list progress_row) (seq : Z) : database :=
  mk_db (users db) ps (audit_logs db) (seq_users db) seq (seq_audit db).

Definition with_audit_logs (db : database) (ls : list audit_row) (seq : Z) : database :=
  mk_db (users db) (progress db) ls (seq_users db) (seq_progress db) seq.

(** [cursor.execute] followed by what [fetchall] would give: the rows, and the
    database as the connection sees it (not yet committed).  [username TEXT
    UNIQUE] is the one constraint a statement of the source can violate. *)
Definition execute {R : Type} (now : timestamp) (q : query R) (db : database)
    : result (list R * database) :=
  match q in query T return result (list T * database) with
  | SelectCountUsers =>
      Ok ([Z.of_nat (List.length (users db))], db)
  | SelectUserByUsername username =>
      Ok (map (fun r => (u_id r, u_username r, u_password r, u_role r))
            (filter (has_username username) (users db)), db)
  | InsertUser username password role =>
      if existsb (has_username username) (users db)
      then Raise IntegrityError
      else
        let id := next_rowid (seq_users db) (map u_id (users db)) in
        Ok ([], with_users db (users db ++ [mk_user id username password role now]) id)
  | InsertAuditLog user_id action details =>
      let id := next_rowid (seq_audit db) (map a_id (audit_logs db)) in
      Ok ([], with_audit_logs db
                (audit_logs db ++ [mk_audit id user_id action details now]) id)
  | SelectCountFait user_id =>
      Ok ([Z.of_nat (List.length (filter (is_fait user_id) (progress db)))], db)
  | SelectStatus user_id subject chapter_name component =>
      Ok (map p_status (filter (has_key user_id subject chapter_name component)
                          (progress db)), db)
  | SelectProgressId user_id subject chapter_name component =>
      Ok (map p_id (filter (has_key user_id subject chapter_name component)
                      (progress db)), db)
  | UpdateProgress status id =>
      Ok ([], with_progress db (map (set_status_where_id now status id) (progress db))
                (seq_progress db))
  | InsertProgress user_id subject chapter_name component status =>
      let id := next_rowid (seq_progress db) (map p_id (progress db)) in
      Ok ([], with_progress db
                (progress db ++
                 [mk_progress id user_id subject chapter_name component status now]) id)
  end.

(** ** Connections and the monad of the services *)

Record world : Type := mk_world {
  store : database;
  open_connections : nat;
  clock : timestamp
}.

(** Time passing between two operations; the program itself never sets the clock. *)
Definition at_time (t : timestamp) (w : world) : world :=
  mk_world (store w) (open_connections w) t.

Definition M (A : Type) : Type := world -> result A * world.

Definition ret {A : Type} (a : A) : M A := fun w => (Ok a, w).

Definition bind {A B : Type} (m : M A) (k : A -> M B) : M B :=
  fun w =>
    match m w with
    | (Ok a, w') => k a w'
    | (Raise e, w') => (Raise e, w')
    end.

Definition lift {A : Type} (r : result A) : M A := fun w => (r, w).

Notation "x <- m ;; k" := (bind m (fun x => k))
  (at level 61, m at next level, right associativity).
Notation "m ;;; k" := (bind m (fun _ => k))
  (at level 61, right associativity).

(** [sqlite3.connect(DB_FILE)], [conn.commit()], [conn.close()] *)
Definition connect (w : world) : world :=
  mk_world (store w) (S (open_connections w)) (clock w).

Definition commit (pending : database) (w : world) : world :=
  mk_world pending (open_connections w) (clock w).

Definition close (w : world) : world :=
  mk_world (store w) (Nat.pred (open_connections w)) (clock w).

(** [init_db()].  The three [CREATE TABLE IF NOT EXISTS] leave existing tables
    as they are and a missing table is an empty one, so they do not show; the
    default admin is inserted through the same cursor.  An exception leaves
    the function where it is raised, with the connection open. *)
Definition init_db {P : Passlib} (salt : string) : M unit :=
  fun w =>
    let w1 := connect w in
    match execute (clock w1) SelectCountUsers (store w1) with
    | Raise e => (Raise e, w1)
    | Ok (fetched, db1) =>
        if hd 0 fetched =? 0
        then
          match hash_password salt DEFAULT_ADMIN_PASS with
          | Raise e => (Raise e, w1)
          | Ok hashed_pw =>
              match execute (clock w1)
                      (InsertUser DEFAULT_ADMIN_USER hashed_pw "admin") db1 with
              | Raise e => (Raise e, w1)
              | Ok (_, db2) => (Ok tt, close (commit db2 w1))
              end
          end
        else (Ok tt, close (commit db1 w1))
    end.

(** [run_query(query, params=(), fetch=True)].  An exception of [c.execute]
    leaves the function at that line.  With [fetch] the connection is closed
    without a commit, which discards what the statement changed. *)
Definition run_query {R : Type} (q : query R) (fetch : bool) : M (option (list R)) :=
  fun w =>
    let w1 := connect w in
    match execute (clock w1) q (store w1) with
    | Raise e => (Raise e, w1)
    | Ok (data, pending) =>
        if fetch
        then (Ok (Some data), close w1)
        else (Ok None, close (commit pending w1))
    end.

(** The world a call leaves when its connection was closed over the database [db]. *)
Definition with_store (db : database) (w : world) : world :=
  mk_world db (open_connections w) (clock w).

(** The rows of a result used as a list: [None] and [[]] are both falsy. *)
Definition rows {R : Type} (res : option (list R)) : list R :=
  match res with
  | Some data => data
  | None => []
  end.

Definition log_audit (user_id : Z) (action details : string) : M unit :=
  run_query (InsertAuditLog user_id action details) false ;;; ret tt.

(** ** Authentication *)

(** The dictionary [login_user] returns. *)
Record session_user : Type := mk_session_user {
  su_id : Z;
  su_username : string;
  su_role : string
}.

(** [login_user(username, password)]: [verify] is called only when a row was
    found, outside any [try], so what it raises leaves the function. *)
Definition login_user {P : Passlib} (username password : string)
    : M (option session_user) :=
  user <- run_query (SelectUserByUsername username) true ;;
  match rows user with
  | (user_id, db_user, db_pass, role) :: _ =>
      verified <- lift (verify_password password db_pass) ;;
      if verified
      then ret (Some (mk_session_user user_id db_user role))
      else ret None
  | [] => ret None
  end.

(** [create_user(username, password, role="student")]: the [try] turns an
    [IntegrityError] into [False]; any other exception of its body, such as
    the one of hashing an oversize password, leaves the function. *)
Definition create_user {P : Passlib} (salt username password role : string) : M bool :=
  fun w =>
    match (hashed <- lift (hash_password salt password) ;;
           run_query (InsertUser username hashed role) false) w with
    | (Ok _, w') => (Ok true, w')
    | (Raise IntegrityError, w') => (Ok false, w')
    | (Raise e, w') => (Raise e, w')
    end.

(** ** The catalog and the dashboard's completion rate *)

Definition catalog : Type := list (string * list string).

Definition DEFAULT_SUBJECTS : catalog :=
  [ ("Mathématiques", ["Algèbre Linéaire"; "Analyse Réelle"; "Probabilités"]);
    ("Physique", ["Mécanique du Point"; "Thermodynamique"; "Électromagnétisme"]);
    ("Informatique", ["Python Intro"; "Structures de Données"; "Algorithmes"]) ].

(** [sum(len(chaps)*3 for chaps in subjects.values())] *)
Definition total_ops (subjects : catalog) : Z :=
  fold_right (fun sc acc => Z.of_nat (List.length (snd sc)) * 3 + acc) 0 subjects.

(** A Python number: the rate is the [int] 0 or a [float]. *)
Inductive number : Type :=
| PyInt (z : Z)
| PyFloat (f : float).

(** [float(n)] for a positive [n]; every step is exact below [2^53]. *)
Fixpoint float_of_pos (p : positive) : float :=
  match p with
  | xH => 1%float
  | xO q => (2 * float_of_pos q)%float
  | xI q => (2 * float_of_pos q + 1)%float
  end.

Definition float_of_Z (z : Z) : float :=
  match z with
  | Z0 => 0%float
  | Zpos p => float_of_pos p
  | Zneg p => (- float_of_pos p)%float
  end.

(** [(completed_tasks / total_ops) * 100 if total_ops > 0 else 0]; the true
    division of two integers below [2^53] is the division of their floats. *)
Definition rate_of (completed_tasks total : Z) : number :=
  if total >? 0
  then PyFloat (float_of_Z completed_tasks / float_of_Z total * 100)%float
  else PyInt 0.

(** The first KPI of [view_dashboard], for the catalog [subjects]. *)
Definition global_rate (subjects : catalog) (user_id : Z) : M number :=
  progress_data <- run_query (SelectCountFait user_id) true ;;
  let completed_tasks := hd 0 (rows progress_data) in
  ret (rate_of completed_tasks (total_ops subjects)).

(** The exact value of a finite double. *)
Definition float_value (f : float) : option Q :=
  match Prim2SF f with
  | S754_zero _ => Some 0%Q
  | S754_finite s m e =>
      let mag :=
        match e with
        | Z0 => inject_Z (Zpos m)
        | Zpos k => inject_Z (Zpos m * 2 ^ Zpos k)
        | Zneg k => Qmake (Zpos m) (2 ^ k)
        end in
      Some (if s then Qopp mag else mag)
  | S754_infinity _ => None
  | S754_nan => None
  end.

Definition number_value (n : number) : option Q :=
  match n with
  | PyInt z => Some (inject_Z z)
  | PyFloat f => float_value f
  end.

(** ** The subject editor *)

Definition STATUS_OPTS : list string := ["Non fait"; "En cours"; "Fait"].

(** [x in options] and [options.index(x)], which raises when [x] is absent. *)
Definition contains (x : string) (options : list string) : bool :=
  existsb (fun y => (y =? x)%string) options.

Fixpoint index (x : string) (options : list string) : result nat :=
  match options with
  | [] => Raise ValueError
  | y :: rest =>
      if (y =? x)%string then Ok 0%nat
      else match index x rest with
           | Ok i => Ok (S i)
           | Raise e => Raise e
           end
  end.

(** [STATUS_OPTS.index(current_status) if current_status in STATUS_OPTS else 0] *)
Definition current_idx (current_status : string) : result nat :=
  if contains current_status STATUS_OPTS
  then index current_status STATUS_OPTS
  else Ok 0%nat.

(** [st.selectbox(label, options, index=...)]: the option the user picked, or
    the one at [index] when the user left the box alone. *)
Definition selectbox (options : list string) (idx : nat) (picked : option string)
    : string :=
  match picked with
  | Some choice => choice
  | None => nth idx options ""
  end.

(** "Fetch current status": [res[0][0] if res else "Non fait"] *)
Definition fetch_current_status (user_id : Z) (subj chap comp : string) : M string :=
  res <- run_query (SelectStatus user_id subj chap comp) true ;;
  ret (match rows res with
       | status :: _ => status
       | [] => "Non fait"
       end).

(** The body of the innermost loop of [view_subjects] for one component of one
    chapter.  The result tells whether the run ended in [st.rerun()]. *)
Definition view_subjects_cell (user_id : Z) (subj chap comp : string)
    (picked : option string) : M bool :=
  current_status <- fetch_current_status user_id subj chap comp ;;
  idx <- lift (current_idx current_status) ;;
  let new_status := selectbox STATUS_OPTS idx picked in
  if negb (new_status =? current_status)%string
  then
    exists_ <- run_query (SelectProgressId user_id subj chap comp) true ;;
    match rows exists_ with
    | id :: _ => run_query (UpdateProgress new_status id) false
    | [] => run_query (InsertProgress user_id subj chap comp new_status) false
    end ;;;
    log_audit user_id "UPDATE_PROGRESS"
      (subj ++ " > " ++ chap ++ " > " ++ comp ++ " : " ++ new_status)%string ;;;
    ret true
  else ret false.

(** The status update of the specification: the cell run with the new status
    picked in its select box. *)
Definition setStatus (user_id : Z) (subj chap comp new_status : string) : M bool :=
  view_subjects_cell user_id subj chap comp (Some new_status).

(** ** What the specification's words say, for comparison with the code *)

(** Insert-or-update on the composite key: the first row of the key gets the
    new status and the time of the write, and keeps its place; without such a
    row a new one is added at the end under the identifier [fresh]. *)
Fixpoint upsert (now : timestamp) (fresh user_id : Z) (subj chap comp status : string)
    (table : list progress_row) : list progress_row :=
  match table with
  | [] => [mk_progress fresh user_id subj chap comp status now]
  | r :: rest =>
      if has_key user_id subj chap comp r
      then mk_progress (p_id r) (p_user_id r) (p_subject r) (p_chapter_name r)
             (p_component r) status now :: rest
      else r :: upsert now fresh user_id subj chap comp status rest
  end.

(** The stored status of a composite key, or the default when the table has no
    row for it. *)
Definition stored_status (user_id : Z) (subj chap comp : string)
    (table : list progress_row) : string :=
  match find (has_key user_id subj chap comp) table with
  | Some r => p_status r
  | None => "Non fait"
  end.

(** The number of a user's rows whose status is "Fait". *)
Fixpoint count_fait (user_id : Z) (table : list progress_row) : Z :=
  match table with
  | [] => 0
  | r :: rest =>
      (if (p_user_id r =? user_id) && (p_status r =? "Fait")%string then 1 else 0)
      + count_fait user_id rest
  end.


(** The rows a table holds for one composite key. *)
Definition entries_for (user_id : Z) (subj chap comp : string)
    (table : list progress_row) : list progress_row :=
  filter (has_key user_id subj chap comp) table.

(** The primary keys of the progress table are pairwise distinct. *)
Definition progress_ids_distinct (db : database) : Prop :=
  NoDup (map p_id (progress db)).

(** [username TEXT UNIQUE] *)
Definition usernames_unique (db : database) : Prop :=
  NoDup (map u_username (users db)).

(** The composite key is unique: no key has two rows. *)
Definition one_row_per_key (db : database) : Prop :=
  forall user_id subj chap comp,
    (List.length (entries_for user_id subj chap comp (progress db)) <= 1)%nat.

(** A passlib to run the services with: the encoded hash is the password, a
    separator and the salt, and a stored value parses when it has a separator. *)
Fixpoint has_separator (s : string) : bool :=
  match s with
  | EmptyString => false
  | String c rest => (Ascii.eqb c (Ascii.ascii_of_nat 36)) || has_separator rest
  end.

Definition demo_passlib : Passlib := {|
  pbkdf2_sha256_hash := fun salt password => (password ++ "$" ++ salt)%string;
  pbkdf2_sha256_identify := has_separator;
  pbkdf2_sha256_verify := fun password hashed => String.prefix (password ++ "$") hashed
|}.

(** A password of 4097 characters, one more than passlib accepts. *)
Definition oversize_password : string :=
  string_of_list_ascii (repeat (Ascii.ascii_of_nat 97) 4097).

(** The database after the "Update DB if changed" block of the cell: the
    update or the insert, then the audit row, each as [execute] writes it. *)
Definition audit_details (subj chap comp new_status : string) : string :=
  (subj ++ " > " ++ chap ++ " > " ++ comp ++ " : " ++ new_status)%string.

Definition after_upsert (now : timestamp) (user_id : Z) (subj chap comp new_status : string)
    (db : database) : database :=
  match map p_id (entries_for user_id subj chap comp (progress db)) with
  | id :: _ =>
      with_progress db (map (set_status_where_id now new_status id) (progress db))
        (seq_progress db)
  | [] =>
      let id := next_rowid (seq_progress db) (map p_id (progress db)) in
      with_progress db
        (progress db ++ [mk_progress id user_id subj chap comp new_status now]) id
  end.

Definition after_audit (now : timestamp) (user_id : Z) (action details : string)
    (db : database) : database :=
  let id := next_rowid (seq_audit db) (map a_id (audit_logs db)) in
  with_audit_logs db (audit_logs db ++ [mk_audit id user_id action details now]) id.

Definition after_change (now : timestamp) (user_id : Z) (subj chap comp new_status : string)
    (db : database) : database :=
  after_audit now user_id "UPDATE_PROGRESS" (audit_details subj chap comp new_status)
    (after_upsert now user_id subj chap comp new_status db).

(** Worlds to run the services in. *)
Definition fresh_world : world := mk_world empty_db 0 1700000000.

Definition seeded_world : world :=
  snd (init_db (P := demo_passlib) "salt0" fresh_world).

Definition studied_world : world :=
  snd (setStatus 1 "Physique" "Thermodynamique" "TD" "En cours" seeded_world).



(** The worlds the program can be in: it starts on an empty file, and every
    step is a service call or time passing. *)
Inductive reachable {P : Passlib} : world -> Prop :=
| reach_start (t : timestamp) : reachable (mk_world empty_db 0 t)
| reach_time (t : timestamp) (w : world) : reachable w -> reachable (at_time t w)
| reach_init_db (salt : string) (w : world) :
    reachable w -> reachable (snd (init_db salt w))
| reach_create_user (salt username password role : string) (w : world) :
    reachable w -> reachable (snd (create_user salt username password role w))
| reach_login_user (username password : string) (w : world) :
    reachable w -> reachable (snd (login_user username password w))
| reach_log_audit (user_id : Z) (action details : string) (w : world) :
    reachable w -> reachable (snd (log_audit user_id action details w))
| reach_view_subjects_cell (user_id : Z) (subj chap comp : string)
    (picked : option string) (w : world) :
    reachable w -> reachable (snd (view_subjects_cell user_id subj chap comp picked w)).

(** ** The rest of the pages *)

(** The page of [view_subjects]: the three loops visit the cells of the catalog
    in order, and the first cell that writes ends the run with [st.rerun()]. *)
Definition components : list string := ["Cours"; "TD"; "TP"].

Definition cell : Type := (string * string * string)%type.

Definition cells (subjects : catalog) : list cell :=
  flat_map
    (fun sc => flat_map (fun chap => map (fun comp => (fst sc, chap, comp)) components)
                 (snd sc))
    subjects.

(** [key=f"{subj}_{chap}_{comp}"]: the select boxes are told apart by this key. *)
Definition widget_key (subj chap comp : string) : string :=
  (subj ++ "_" ++ chap ++ "_" ++ comp)%string.

Fixpoint run_cells (user_id : Z) (picks : string -> option string) (todo : list cell)
    : M bool :=
  match todo with
  | [] => ret false
  | (subj, chap, comp) :: rest =>
      rerun <- view_subjects_cell user_id subj chap comp
                 (picks (widget_key subj chap comp)) ;;
      if rerun then ret true else run_cells user_id picks rest
  end.

Definition view_subjects (subjects : catalog) (user_id : Z)
    (picks : string -> option string) : M bool :=
  run_cells user_id picks (cells subjects).

(** The form of [view_admin]: what [st.success] or [st.error] shows, if the
    form was submitted. *)
Inductive message : Type :=
| Success (text : string)
| Error (text : string).

Definition view_admin_create {P : Passlib} (admin_id : Z)
    (salt new_user new_pass role : string) (submit : bool) : M (option message) :=
  if submit
  then
    created <- create_user salt new_user new_pass role ;;
    if created
    then
      log_audit admin_id "CREATE_USER"
        ("Created user " ++ new_user ++ " (" ++ role ++ ")")%string ;;;
      ret (Some (Success ("Utilisateur " ++ new_user ++ " créé avec succès !")%string))
    else ret (Some (Error "Erreur : Ce nom d'utilisateur existe déjà."))
  else ret None.

(** The sidebar and the routing of [main] for a logged-in user. *)
Definition menu_options (role : string) : list string :=
  ["Dashboard"; "Matières"] ++ (if (role =? "admin")%string then ["Admin Panel"] else []).

Inductive page : Type :=
| DashboardPage
| SubjectsPage
| AdminPage
| Unauthorized
| NoPage.

Definition route (role selected : string) : page :=
  if (selected =? "Dashboard")%string then DashboardPage
  else if (selected =? "Matières")%string then SubjectsPage
  else if (selected =? "Admin Panel")%string
       then (if (role =? "admin")%string then AdminPage else Unauthorized)
       else NoPage.

(** ** Histories *)

(** One call of a function of the program, or time passing. *)
Inductive step {P : Passlib} : world -> world -> Prop :=
| step_time (t : timestamp) (w : world) : step w (at_time t w)
| step_init_db (salt : string) (w : world) : step w (snd (init_db salt w))
| step_create_user (salt username password role : string) (w : world) :
    step w (snd (create_user salt username password role w))
| step_login_user (username password : string) (w : world) :
    step w (snd (login_user username password w))
| step_log_audit (user_id : Z) (action details : string) (w : world) :
    step w (snd (log_audit user_id action details w))
| step_global_rate (subjects : catalog) (user_id : Z) (w : world) :
    step w (snd (global_rate subjects user_id w))
| step_view_subjects_cell (user_id : Z) (subj chap comp : string)
    (picked : option string) (w : world) :
    step w (snd (view_subjects_cell user_id subj chap comp picked w)).

Inductive steps {P : Passlib} : world -> world -> Prop :=
| steps_none (w : world) : steps w w
| steps_more (w w1 w2 : world) : steps w w1 -> step w1 w2 -> steps w w2.

(** What a progress row is about: everything but its status and timestamp. *)
Definition row_identity (r : progress_row) : Z * Z * string * string * string :=
  (p_id r, p_user_id r, p_subject r, p_chapter_name r, p_component r).

(** The later world holds everything the earlier one held: the user and audit
    tables only gained rows at their end, and so did the progress table, whose
    earlier rows are still about the same key under the same id. *)
Definition grows (w w' : world) : Prop :=
  (exists added, users (store w') = users (store w) ++ added) /\
  (exists added, audit_logs (store w') = audit_logs (store w) ++ added) /\
  (exists added, map row_identity (progress (store w'))
                 = map row_identity (progress (store w)) ++ added).

(** The worlds the pages of [main] lead to from an empty file: the subject
    editor runs over [DEFAULT_SUBJECTS], and a select box returns one of its
    options. *)
Inductive page_reachable {P : Passlib} : world -> Prop :=
| pages_start (t : timestamp) : page_reachable (mk_world empty_db 0 t)
| pages_time (t : timestamp) (w : world) : page_reachable w -> page_reachable (at_time t w)
| pages_init_db (salt : string) (w : world) :
    page_reachable w -> page_reachable (snd (init_db salt w))
| pages_login (username password : string) (w : world) :
    page_reachable w -> page_reachable (snd (login_user username password w))
| pages_dashboard (user_id : Z) (w : world) :
    page_reachable w -> page_reachable (snd (global_rate DEFAULT_SUBJECTS user_id w))
| pages_subjects (user_id : Z) (picks : string -> option string) (w : world) :
    (forall key choice, picks key = Some choice -> In choice STATUS_OPTS) ->
    page_reachable w ->
    page_reachable (snd (view_subjects DEFAULT_SUBJECTS user_id picks w))
| pages_admin (admin_id : Z) (salt new_user new_pass role : string) (submit : bool)
    (w : world) :
    page_reachable w ->
    page_reachable (snd (view_admin_create admin_id salt new_user new_pass role submit w)).

(** Every progress row is about a cell of the catalog. *)
Definition rows_in_catalog (subjects : catalog) (db : database) : Prop :=
  forall r, In r (progress db) ->
            In (p_subject r, p_chapter_name r, p_component r) (cells subjects).

(** Every progress row holds one of the three statuses. *)
Definition statuses_recognised (db : database) : Prop :=
  forall r, In r (progress db) -> In (p_status r) STATUS_OPTS.

(** What the pages keep true of the database. *)
Definition page_invariant (db : database) : Prop :=
  (progress_ids_distinct db /\ usernames_unique db /\ one_row_per_key db) /\
  rows_in_catalog DEFAULT_SUBJECTS db /\ statuses_recognised db.

(** The cell a progress row is about. *)
Definition cell_of (r : progress_row) : cell :=
  (p_subject r, p_chapter_name r, p_component r).

(** The rate lies between 0 and 100. *)
Definition rate_in_range (rate : number) : bool :=
  match number_value rate with
  | Some q => Qle_bool 0 q && Qle_bool q 100
  | None => false
  end.

(** A visit of the subject page in which one box is set to "Fait". *)
Definition one_pick (key : string) : option string :=
  if (key =? widget_key "Physique" "Thermodynamique" "TD")%string then Some "Fait" else None.

Definition paged_world : world :=
  snd (view_subjects DEFAULT_SUBJECTS 1 one_pick seeded_world).

(** The audit log accounts for the status of a progress row: it holds an
    UPDATE_PROGRESS row of the same user whose detail names the row's cell and
    its present status. *)
Definition accounted_for (logs : list audit_row) (r : progress_row) : Prop :=
  exists a, In a logs /\ a_user_id a = p_user_id r /\ a_action a = "UPDATE_PROGRESS" /\
            a_details a
            = audit_details (p_subject r) (p_chapter_name r) (p_component r) (p_status r).

(** The identifiers of a table grow along its rows. *)
Definition ids_increasing (ids : list Z) : Prop := StronglySorted Z.lt ids.

(** * Properties *)

(** ** Connections *)

Lemma close_connect (w : world) : close (connect w) = w.
Proof. destruct w; reflexivity. Qed.

Lemma close_commit_connect (db : database) (w : world) :
  close (commit db (connect w)) = with_store db w.
Proof. reflexivity. Qed.

Lemma with_store_same (w : world) : with_store (store w) w = w.
Proof. destruct w; reflexivity. Qed.

Lemma run_query_ok {R : Type} (q : query R) (fetch : bool) (w : world)
    (data : list R) (pending : database) :
  execute (clock w) q (store w) = Ok (data, pending) ->
  run_query q fetch w =
    if fetch then (Ok (Some data), w) else (Ok None, with_store pending w).
Proof.
  intros Hex. unfold run_query. cbn [connect store clock]. rewrite Hex.
  destruct fetch; [rewrite close_connect | rewrite close_commit_connect]; reflexivity.
Qed.

Lemma run_query_raise {R : Type} (q : query R) (fetch : bool) (w : world) (e : exn) :
  execute (clock w) q (store w) = Raise e ->
  run_query q fetch w = (Raise e, connect w).
Proof.
  intros Hex. unfold run_query. cbn [connect store clock]. rewrite Hex. reflexivity.
Qed.

(** The two normal paths: whenever the statement executes without an error,
    [run_query] returns normally with the connection it opened closed again,
    on the fetching path and on the committing path alike; the fetching path
    leaves the database as it was and the committing path stores what the
    statement wrote. *)
Theorem run_query_closes_on_success {R : Type} (q : query R) (fetch : bool)
    (w : world) (data : list R) (pending : database) :
  execute (clock w) q (store w) = Ok (data, pending) ->
  fst (run_query q fetch w) = Ok (if fetch then Some data else None) /\
  open_connections (snd (run_query q fetch w)) = open_connections w /\
  store (snd (run_query q fetch w)) = (if fetch then store w else pending).
Proof.
  intros Hex. rewrite (run_query_ok q fetch w data pending Hex).
  destruct fetch; cbn; auto.
Qed.

Lemma run_query_closes_on_success_witness :
  fst (run_query (SelectCountUsers) true seeded_world) = Ok (Some [1]) /\
  open_connections (snd (run_query (SelectCountUsers) true seeded_world))
    = open_connections seeded_world /\
  store (snd (run_query (SelectCountUsers) true seeded_world)) = store seeded_world.
Proof.
  apply (run_query_closes_on_success SelectCountUsers true seeded_world [1]
           (store seeded_world)).
  reflexivity.
Defined.

(** C9 fails on the code on the error path, which misses the [conn.close()]
    that both normal paths make: inserting a user name that is taken raises
    inside [c.execute], and the connection [run_query] opened is still open
    when the exception leaves it. *)
Lemma run_query_error_keeps_connection_open :
  fst (run_query (InsertUser "admin" "hash" "student") false seeded_world)
    = Raise IntegrityError /\
  open_connections seeded_world = 0%nat /\
  open_connections
    (snd (run_query (InsertUser "admin" "hash" "student") false seeded_world)) = 1%nat.
Proof. vm_compute. auto. Qed.

(** ** Reading a status *)

Lemma hd_map_filter_find {A B : Type} (f : A -> B) (p : A -> bool) (l : list A) :
  match map f (filter p l) with
  | b :: _ => Some b
  | [] => None
  end = option_map f (find p l).
Proof.
  induction l as [|a l IH]; cbn; [reflexivity|].
  destruct (p a); cbn; [reflexivity | exact IH].
Qed.

Lemma fetch_current_status_run (user_id : Z) (subj chap comp : string) (w : world) :
  fetch_current_status user_id subj chap comp w =
    (Ok (stored_status user_id subj chap comp (progress (store w))), w).
Proof.
  unfold fetch_current_status, bind.
  rewrite (run_query_ok (SelectStatus user_id subj chap comp) true w _ (store w) eq_refl).
  cbn [rows ret].
  unfold stored_status.
  pose proof (hd_map_filter_find p_status (has_key user_id subj chap comp)
                (progress (store w))) as H.
  destruct (map p_status _); destruct (find _ _); cbn in H; unfold ret; congruence.
Qed.

Lemma find_none_iff {A : Type} (p : A -> bool) (l : list A) :
  find p l = None <-> forall x, In x l -> p x = false.
Proof.
  split.
  - apply find_none.
  - induction l as [|a l IH]; cbn; intros H; [reflexivity|].
    rewrite (H a (or_introl eq_refl)). apply IH. intros x Hx. apply H. now right.
Qed.

(** C3: reading the status of a composite key returns normally, leaves the
    world as it was, and yields the status of the table's row for that key;
    when the table has no such row it yields "Non fait". *)
Theorem getStatus_stored_or_default (user_id : Z) (subj chap comp : string) (w : world) :
  exists status,
    fetch_current_status user_id subj chap comp w = (Ok status, w) /\
    ((forall r, In r (progress (store w)) ->
                has_key user_id subj chap comp r = false) ->
     status = "Non fait") /\
    (forall r, In r (progress (store w)) ->
               has_key user_id subj chap comp r = true ->
               (forall r', In r' (progress (store w)) ->
                           has_key user_id subj chap comp r' = true -> r' = r) ->
               status = p_status r) /\
    (status <> "Non fait" ->
     exists r, In r (progress (store w)) /\
               has_key user_id subj chap comp r = true /\ status = p_status r).
Proof.
  exists (stored_status user_id subj chap comp (progress (store w))).
  split; [apply fetch_current_status_run|]. unfold stored_status.
  destruct (find _ _) as [r0|] eqn:Hfind.
  - apply find_some in Hfind. destruct Hfind as [Hin Hkey].
    repeat split.
    + intros Hnone. rewrite (Hnone r0 Hin) in Hkey. discriminate.
    + intros r _ _ Huniq. now rewrite (Huniq r0 Hin Hkey).
    + intros _. exists r0. auto.
  - repeat split; try reflexivity.
    + intros r Hin Hkey _. rewrite (proj1 (find_none_iff _ _) Hfind r Hin) in Hkey.
      discriminate.
    + intros Hne. now contradiction Hne.
Qed.

Lemma getStatus_stored_or_default_witness :
  exists status,
    fetch_current_status 1 "Physique" "Thermodynamique" "TD" studied_world
      = (Ok status, studied_world) /\
    status = "En cours".
Proof.
  destruct (getStatus_stored_or_default 1 "Physique" "Thermodynamique" "TD" studied_world)
    as [status [Hrun [_ [Hstored _]]]].
  exists status. split; [exact Hrun|].
  apply (Hstored (mk_progress 1 1 "Physique" "Thermodynamique" "TD" "En cours" 1700000000)).
  - vm_compute. auto.
  - reflexivity.
  - intros r' Hin _. vm_compute in Hin. destruct Hin as [<-|[]]. reflexivity.
Defined.

(** ** The select box and the cell *)

Lemma current_idx_total (current_status : string) :
  exists idx, current_idx current_status = Ok idx /\ (idx < 3)%nat.
Proof.
  unfold current_idx, contains, STATUS_OPTS. cbn [existsb index].
  destruct ("Non fait" =? current_status)%string; cbn [orb].
  { exists 0%nat. split; [reflexivity | lia]. }
  destruct ("En cours" =? current_status)%string; cbn [orb].
  { exists 1%nat. split; [reflexivity | lia]. }
  destruct ("Fait" =? current_status)%string; cbn [orb].
  { exists 2%nat. split; [reflexivity | lia]. }
  exists 0%nat. split; [reflexivity | lia].
Qed.

Lemma log_audit_run (user_id : Z) (action details : string) (w : world) :
  log_audit user_id action details w =
    (Ok tt, with_store (after_audit (clock w) user_id action details (store w)) w).
Proof.
  unfold log_audit, bind.
  rewrite (run_query_ok (InsertAuditLog user_id action details) false w []
             (after_audit (clock w) user_id action details (store w)) eq_refl).
  reflexivity.
Qed.

Lemma view_subjects_cell_run (user_id : Z) (subj chap comp : string)
    (picked : option string) (w : world) :
  exists idx,
    current_idx (stored_status user_id subj chap comp (progress (store w))) = Ok idx /\
    view_subjects_cell user_id subj chap comp picked w =
      if (selectbox STATUS_OPTS idx picked
          =? stored_status user_id subj chap comp (progress (store w)))%string
      then (Ok false, w)
      else (Ok true,
            with_store (after_change (clock w) user_id subj chap comp
                          (selectbox STATUS_OPTS idx picked) (store w)) w).
Proof.
  destruct (current_idx_total (stored_status user_id subj chap comp (progress (store w))))
    as [idx [Hidx _]].
  exists idx. split; [exact Hidx|].
  unfold view_subjects_cell, bind. rewrite fetch_current_status_run.
  unfold lift. rewrite Hidx.
  destruct (selectbox STATUS_OPTS idx picked =? _)%string; cbn [negb]; [reflexivity|].
  rewrite (run_query_ok (SelectProgressId user_id subj chap comp) true w _ (store w) eq_refl).
  cbn [rows]. unfold after_change, after_upsert, entries_for.
  destruct (map p_id (filter _ _)) as [|id ids].
  - rewrite (run_query_ok (InsertProgress user_id subj chap comp _) false w [] _ eq_refl).
    cbn [fst snd]. rewrite log_audit_run. reflexivity.
  - rewrite (run_query_ok (UpdateProgress _ id) false w [] _ eq_refl).
    cbn [fst snd]. rewrite log_audit_run. reflexivity.
Qed.

Lemma setStatus_run (user_id : Z) (subj chap comp new_status : string) (w : world) :
  setStatus user_id subj chap comp new_status w =
    if (new_status =? stored_status user_id subj chap comp (progress (store w)))%string
    then (Ok false, w)
    else (Ok true,
          with_store (after_change (clock w) user_id subj chap comp new_status (store w)) w).
Proof.
  unfold setStatus.
  destruct (view_subjects_cell_run user_id subj chap comp (Some new_status) w)
    as [idx [_ Hrun]].
  exact Hrun.
Qed.

(** C10: a stored status outside the three options does not make the editor
    fail: the guarded lookup yields index 0, the option at index 0 is
    "Non fait", and the cell returns normally whatever the user picked. *)
Theorem unrecognised_status_falls_back (current_status : string) :
  contains current_status STATUS_OPTS = false ->
  current_idx current_status = Ok 0%nat /\
  selectbox STATUS_OPTS 0 None = "Non fait" /\
  (forall user_id subj chap comp picked w,
     stored_status user_id subj chap comp (progress (store w)) = current_status ->
     exists rerun, fst (view_subjects_cell user_id subj chap comp picked w) = Ok rerun).
Proof.
  intros Hout. split; [|split].
  - unfold current_idx. now rewrite Hout.
  - reflexivity.
  - intros user_id subj chap comp picked w _.
    destruct (view_subjects_cell_run user_id subj chap comp picked w) as [idx [_ Hrun]].
    rewrite Hrun. destruct (_ =? _)%string; cbn [fst]; eauto.
Qed.

Lemma unrecognised_status_falls_back_witness :
  current_idx "Termine" = Ok 0%nat /\ selectbox STATUS_OPTS 0 None = "Non fait".
Proof.
  destruct (unrecognised_status_falls_back "Termine" eq_refl) as [Hidx [Hshown _]].
  split; [exact Hidx | exact Hshown].
Defined.

(** ** The upsert *)

Lemma set_status_other_ids (now : timestamp) (status : string) (id : Z)
    (table : list progress_row) :
  ~ In id (map p_id table) ->
  map (set_status_where_id now status id) table = table.
Proof.
  induction table as [|r rest IH]; cbn; intros Hnot; [reflexivity|].
  unfold set_status_where_id at 1.
  destruct (Z.eqb_spec (p_id r) id) as [Heq|Hne].
  - exfalso. apply Hnot. now left.
  - f_equal. apply IH. intros Hin. apply Hnot. now right.
Qed.

Lemma filtered_id_in_table (p : progress_row -> bool) (table : list progress_row)
    (id : Z) (ids : list Z) :
  map p_id (filter p table) = id :: ids -> In id (map p_id table).
Proof.
  intros Hids. assert (Hin : In id (map p_id (filter p table))) by (rewrite Hids; now left).
  apply in_map_iff in Hin. destruct Hin as [r [Hid Hr]].
  apply filter_In in Hr. apply in_map_iff. exists r. tauto.
Qed.

Lemma update_first_is_upsert (now : timestamp) (fresh user_id : Z)
    (subj chap comp status : string) (table : list progress_row) (id : Z) (ids : list Z) :
  NoDup (map p_id table) ->
  map p_id (entries_for user_id subj chap comp table) = id :: ids ->
  map (set_status_where_id now status id) table
  = upsert now fresh user_id subj chap comp status table.
Proof.
  unfold entries_for.
  induction table as [|r rest IH]; cbn [map filter upsert]; intros Hnd Hids.
  - discriminate.
  - inversion Hnd as [|? ? Hnotin Hnd']; subst.
    destruct (has_key user_id subj chap comp r) eqn:Hkey.
    + cbn [map] in Hids. injection Hids as Hid _. subst id.
      rewrite (set_status_other_ids now status (p_id r) rest Hnotin).
      unfold set_status_where_id. now rewrite Z.eqb_refl.
    + rewrite (IH Hnd' Hids). f_equal. unfold set_status_where_id.
      destruct (Z.eqb_spec (p_id r) id) as [Heq|Hne]; [|reflexivity].
      exfalso. apply Hnotin. rewrite Heq.
      exact (filtered_id_in_table _ rest id ids Hids).
Qed.

Lemma insert_is_upsert (now : timestamp) (fresh user_id : Z)
    (subj chap comp status : string) (table : list progress_row) :
  entries_for user_id subj chap comp table = [] ->
  table ++ [mk_progress fresh user_id subj chap comp status now]
  = upsert now fresh user_id subj chap comp status table.
Proof.
  unfold entries_for.
  induction table as [|r rest IH]; cbn [app filter upsert]; intros Hnone; [reflexivity|].
  destruct (has_key user_id subj chap comp r); [discriminate|].
  now rewrite (IH Hnone).
Qed.

Lemma after_upsert_progress (now : timestamp) (user_id : Z)
    (subj chap comp status : string) (db : database) :
  progress_ids_distinct db ->
  progress (after_upsert now user_id subj chap comp status db)
  = upsert now (next_rowid (seq_progress db) (map p_id (progress db)))
      user_id subj chap comp status (progress db).
Proof.
  intros Hnd. unfold after_upsert.
  destruct (map p_id (entries_for user_id subj chap comp (progress db))) as [|id ids] eqn:Hids.
  - cbn [progress with_progress]. apply insert_is_upsert.
    now apply map_eq_nil in Hids.
  - cbn [progress with_progress]. exact (update_first_is_upsert _ _ _ _ _ _ _ _ _ _ Hnd Hids).
Qed.

Lemma has_key_refl (user_id : Z) (subj chap comp status : string) (id : Z) (now : timestamp) :
  has_key user_id subj chap comp (mk_progress id user_id subj chap comp status now) = true.
Proof.
  unfold has_key. cbn. now rewrite Z.eqb_refl, !String.eqb_refl.
Qed.

Lemma stored_status_upsert (now : timestamp) (fresh user_id : Z)
    (subj chap comp status : string) (table : list progress_row) :
  stored_status user_id subj chap comp
    (upsert now fresh user_id subj chap comp status table) = status.
Proof.
  unfold stored_status.
  induction table as [|r rest IH]; cbn [upsert find].
  - now rewrite has_key_refl.
  - destruct (has_key user_id subj chap comp r) eqn:Hkey; cbn [find].
    + unfold has_key in *. cbn. now rewrite Hkey.
    + now rewrite Hkey.
Qed.

Lemma entries_for_upsert (now : timestamp) (fresh user_id : Z)
    (subj chap comp status : string) (table : list progress_row) :
  List.length (entries_for user_id subj chap comp
                 (upsert now fresh user_id subj chap comp status table))
  = Nat.max 1 (List.length (entries_for user_id subj chap comp table)).
Proof.
  unfold entries_for.
  induction table as [|r rest IH]; cbn [upsert filter].
  - now rewrite has_key_refl.
  - destruct (has_key user_id subj chap comp r) eqn:Hkey; cbn [filter].
    + assert (Hk : has_key user_id subj chap comp
                     (mk_progress (p_id r) (p_user_id r) (p_subject r) (p_chapter_name r)
                        (p_component r) status now) = true) by exact Hkey.
      rewrite Hk. cbn [List.length]. lia.
    + rewrite Hkey. exact IH.
Qed.

Lemma stored_status_entries (user_id : Z) (subj chap comp : string)
    (table : list progress_row) :
  stored_status user_id subj chap comp table
  = match entries_for user_id subj chap comp table with
    | r :: _ => p_status r
    | [] => "Non fait"
    end.
Proof.
  unfold stored_status, entries_for.
  induction table as [|r rest IH]; cbn [find filter]; [reflexivity|].
  destruct (has_key user_id subj chap comp r); [reflexivity | exact IH].
Qed.

Lemma single_entry_status (user_id : Z) (subj chap comp status : string)
    (table : list progress_row) :
  stored_status user_id subj chap comp table = status ->
  List.length (entries_for user_id subj chap comp table) = 1%nat ->
  exists r, entries_for user_id subj chap comp table = [r] /\ p_status r = status.
Proof.
  rewrite stored_status_entries.
  destruct (entries_for user_id subj chap comp table) as [|r [|r' rest]];
    cbn [List.length]; intros Hst Hlen; try discriminate.
  exists r. split; [reflexivity | exact Hst].
Qed.

Lemma after_audit_progress (now : timestamp) (user_id : Z) (action details : string)
    (db : database) :
  progress (after_audit now user_id action details db) = progress db.
Proof. reflexivity. Qed.

Lemma after_upsert_audit_logs (now : timestamp) (user_id : Z)
    (subj chap comp status : string) (db : database) :
  audit_logs (after_upsert now user_id subj chap comp status db) = audit_logs db /\
  seq_audit (after_upsert now user_id subj chap comp status db) = seq_audit db /\
  users (after_upsert now user_id subj chap comp status db) = users db.
Proof.
  unfold after_upsert. destruct (map p_id _); cbn; auto.
Qed.

(** C1, as the code has it.  In a table whose primary keys are distinct, a call
    whose new status differs from the current (stored or default) one is an
    insert-or-update on the composite key: the key's row has its status and
    timestamp rewritten in place, or, without such a row, a new row is added.
    A call whose new status is the current one changes nothing.  Either way
    the status read back afterwards is the value set, a second call with the
    same value changes nothing, and a table that held at most one row for the
    key still does; it holds exactly one, with the value set, when the value is
    not "Non fait" or a row was there before. *)
Theorem setStatus_upsert (user_id : Z) (subj chap comp new_status : string) (w : world) :
  progress_ids_distinct (store w) ->
  (new_status <> stored_status user_id subj chap comp (progress (store w)) ->
   fst (setStatus user_id subj chap comp new_status w) = Ok true /\
   progress (store (snd (setStatus user_id subj chap comp new_status w)))
   = upsert (clock w)
       (next_rowid (seq_progress (store w)) (map p_id (progress (store w))))
       user_id subj chap comp new_status (progress (store w))) /\
  (new_status = stored_status user_id subj chap comp (progress (store w)) ->
   setStatus user_id subj chap comp new_status w = (Ok false, w)) /\
  fetch_current_status user_id subj chap comp
    (snd (setStatus user_id subj chap comp new_status w))
  = (Ok new_status, snd (setStatus user_id subj chap comp new_status w)) /\
  (forall t,
     setStatus user_id subj chap comp new_status
       (at_time t (snd (setStatus user_id subj chap comp new_status w)))
     = (Ok false, at_time t (snd (setStatus user_id subj chap comp new_status w)))) /\
  ((List.length (entries_for user_id subj chap comp (progress (store w))) <= 1)%nat ->
   (List.length
      (entries_for user_id subj chap comp
         (progress (store (snd (setStatus user_id subj chap comp new_status w)))))
    <= 1)%nat /\
   (new_status <> "Non fait" \/
    entries_for user_id subj chap comp (progress (store w)) <> [] ->
    exists r,
      entries_for user_id subj chap comp
        (progress (store (snd (setStatus user_id subj chap comp new_status w)))) = [r] /\
      p_status r = new_status)).
Proof.
  intros Hnd.
  assert (Hafter : stored_status user_id subj chap comp
            (progress (store (snd (setStatus user_id subj chap comp new_status w))))
          = new_status).
  { rewrite setStatus_run.
    destruct (String.eqb_spec new_status
                (stored_status user_id subj chap comp (progress (store w)))) as [Heq|Hne].
    - cbn [snd]. now symmetry.
    - cbn [snd store with_store]. unfold after_change.
      rewrite after_audit_progress, (after_upsert_progress _ _ _ _ _ _ _ Hnd).
      apply stored_status_upsert. }
  split; [|split; [|split; [|split]]].
  - intros Hne. rewrite setStatus_run.
    rewrite (proj2 (String.eqb_neq _ _) Hne). cbn [fst snd store with_store].
    split; [reflexivity|]. unfold after_change.
    now rewrite after_audit_progress, (after_upsert_progress _ _ _ _ _ _ _ Hnd).
  - intros Heq. rewrite setStatus_run. now rewrite (proj2 (String.eqb_eq _ _) Heq).
  - rewrite fetch_current_status_run. now rewrite Hafter.
  - intros t. rewrite setStatus_run. cbn [store at_time].
    now rewrite Hafter, String.eqb_refl.
  - intros Hone. revert Hafter. rewrite setStatus_run.
    destruct (String.eqb_spec new_status
                (stored_status user_id subj chap comp (progress (store w)))) as [Heq|Hne];
      cbn [snd store with_store]; intros Hafter.
    + split; [exact Hone|]. intros Hsome.
      apply single_entry_status; [exact Hafter|].
      assert (Hnonempty : entries_for user_id subj chap comp (progress (store w)) <> []).
      { destruct Hsome as [Hnd'|Hex]; [|exact Hex].
        intros Hempty. apply Hnd'. rewrite Heq, stored_status_entries, Hempty.
        reflexivity. }
      destruct (entries_for user_id subj chap comp (progress (store w))) as [|r [|r' rest]];
        cbn [List.length] in *; [now contradiction Hnonempty | reflexivity | lia].
    + unfold after_change in *.
      rewrite after_audit_progress, (after_upsert_progress _ _ _ _ _ _ _ Hnd) in *.
      rewrite entries_for_upsert.
      split; [lia|]. intros _.
      apply single_entry_status; [exact Hafter|].
      rewrite entries_for_upsert. lia.
Qed.

Lemma studied_world_ids_distinct : progress_ids_distinct (store studied_world).
Proof.
  unfold progress_ids_distinct. vm_compute.
  constructor; [intros [] | constructor].
Qed.

Lemma setStatus_upsert_witness :
  fetch_current_status 1 "Physique" "Thermodynamique" "TD"
    (snd (setStatus 1 "Physique" "Thermodynamique" "TD" "Fait" studied_world))
  = (Ok "Fait", snd (setStatus 1 "Physique" "Thermodynamique" "TD" "Fait" studied_world)).
Proof.
  destruct (setStatus_upsert 1 "Physique" "Thermodynamique" "TD" "Fait" studied_world
              studied_world_ids_distinct) as [_ [_ [Hread _]]].
  exact Hread.
Defined.

(** C1 as stated fails when the status set is the default one and the key has
    no row: nothing is inserted, and after two such calls the table still has
    no entry for the key. *)
Lemma setStatus_default_twice_inserts_nothing :
  entries_for 1 "Physique" "Thermodynamique" "TD" (progress (store seeded_world)) = [] /\
  entries_for 1 "Physique" "Thermodynamique" "TD"
    (progress (store
       (snd (setStatus 1 "Physique" "Thermodynamique" "TD" "Non fait"
          (snd (setStatus 1 "Physique" "Thermodynamique" "TD" "Non fait"
                  seeded_world)))))) = [].
Proof. vm_compute. auto. Qed.

(** C2: a call whose new status differs from the current (stored or default)
    one appends exactly one audit row, for that user, with action
    UPDATE_PROGRESS and the detail "subject > chapter > component : status";
    a call whose new status is the current one leaves the audit log as it
    was. *)
Theorem setStatus_audit (user_id : Z) (subj chap comp new_status : string) (w : world) :
  (new_status <> stored_status user_id subj chap comp (progress (store w)) ->
   fst (setStatus user_id subj chap comp new_status w) = Ok true /\
   audit_logs (store (snd (setStatus user_id subj chap comp new_status w)))
   = audit_logs (store w) ++
     [mk_audit (next_rowid (seq_audit (store w)) (map a_id (audit_logs (store w))))
        user_id "UPDATE_PROGRESS"
        (subj ++ " > " ++ chap ++ " > " ++ comp ++ " : " ++ new_status)%string
        (clock w)]) /\
  (new_status = stored_status user_id subj chap comp (progress (store w)) ->
   fst (setStatus user_id subj chap comp new_status w) = Ok false /\
   audit_logs (store (snd (setStatus user_id subj chap comp new_status w)))
   = audit_logs (store w)).
Proof.
  split.
  - intros Hne. rewrite setStatus_run.
    rewrite (proj2 (String.eqb_neq _ _) Hne). cbn [fst snd store with_store].
    split; [reflexivity|]. unfold after_change.
    destruct (after_upsert_audit_logs (clock w) user_id subj chap comp new_status (store w))
      as [Hlogs [Hseq _]].
    unfold after_audit. cbn [audit_logs with_audit_logs]. now rewrite Hlogs, Hseq.
  - intros Heq. rewrite setStatus_run. rewrite (proj2 (String.eqb_eq _ _) Heq).
    split; reflexivity.
Qed.

Lemma setStatus_audit_witness :
  audit_logs (store (snd (setStatus 1 "Physique" "Thermodynamique" "TD" "Fait" studied_world)))
  = audit_logs (store studied_world) ++
    [mk_audit 2 1 "UPDATE_PROGRESS" "Physique > Thermodynamique > TD : Fait" 1700000000] /\
  audit_logs (store (snd (setStatus 1 "Physique" "Thermodynamique" "TD" "En cours"
                            studied_world)))
  = audit_logs (store studied_world).
Proof.
  destruct (setStatus_audit 1 "Physique" "Thermodynamique" "TD" "Fait" studied_world)
    as [Hchanged _].
  destruct (setStatus_audit 1 "Physique" "Thermodynamique" "TD" "En cours" studied_world)
    as [_ Hsame].
  split.
  - apply Hchanged. vm_compute. discriminate.
  - apply Hsame. vm_compute. reflexivity.
Defined.

(** ** The completion rate *)

Lemma count_fait_length (user_id : Z) (table : list progress_row) :
  Z.of_nat (List.length (filter (is_fait user_id) table)) = count_fait user_id table.
Proof.
  induction table as [|r rest IH]; cbn [filter count_fait List.length]; [reflexivity|].
  unfold is_fait at 1.
  destruct ((p_user_id r =? user_id) && (p_status r =? "Fait")%string);
    cbn [List.length]; lia.
Qed.


Lemma global_rate_run (subjects : catalog) (user_id : Z) (w : world) :
  global_rate subjects user_id w =
    (Ok (rate_of (count_fait user_id (progress (store w))) (total_ops subjects)), w).
Proof.
  unfold global_rate, bind.
  rewrite (run_query_ok (SelectCountFait user_id) true w _ (store w) eq_refl).
  cbn [rows hd ret]. now rewrite count_fait_length.
Qed.

Lemma total_ops_DEFAULT_SUBJECTS : total_ops DEFAULT_SUBJECTS = 27.
Proof. reflexivity. Qed.



(** ** Accounts *)

Lemma create_user_run {P : Passlib} (salt username password role : string) (w : world) :
  create_user salt username password role w =
    if too_long password
    then (Raise PasswordSizeError, w)
    else if existsb (has_username username) (users (store w))
    then (Ok false, connect w)
    else (Ok true,
          with_store
            (with_users (store w)
               (users (store w) ++
                [mk_user (next_rowid (seq_users (store w)) (map u_id (users (store w))))
                   username (pbkdf2_sha256_hash salt password) role (clock w)])
               (next_rowid (seq_users (store w)) (map u_id (users (store w)))))
            w).
Proof.
  unfold create_user, bind, lift, hash_password.
  destruct (too_long password); [reflexivity|].
  destruct (existsb (has_username username) (users (store w))) eqn:Htaken.
  - rewrite (run_query_raise (InsertUser username _ role) false w IntegrityError);
      [reflexivity|].
    cbn [execute]. now rewrite Htaken.
  - rewrite (run_query_ok (InsertUser username (pbkdf2_sha256_hash salt password) role)
               false w []
               (with_users (store w)
                  (users (store w) ++
                   [mk_user (next_rowid (seq_users (store w)) (map u_id (users (store w))))
                      username (pbkdf2_sha256_hash salt password) role (clock w)])
                  (next_rowid (seq_users (store w)) (map u_id (users (store w)))))).
    + reflexivity.
    + cbn [execute]. rewrite Htaken. reflexivity.
Qed.

Lemma login_user_run {P : Passlib} (username password : string) (w : world) :
  login_user username password w =
    (match filter (has_username username) (users (store w)) with
     | r :: _ =>
         match verify_password password (u_password r) with
         | Ok true => Ok (Some (mk_session_user (u_id r) (u_username r) (u_role r)))
         | Ok false => Ok None
         | Raise e => Raise e
         end
     | [] => Ok None
     end, w).
Proof.
  unfold login_user, bind.
  rewrite (run_query_ok (SelectUserByUsername username) true w _ (store w) eq_refl).
  cbn [rows]. destruct (filter (has_username username) (users (store w))) as [|r rest];
    cbn [map]; [reflexivity|].
  unfold lift. destruct (verify_password password (u_password r)) as [[|]|e]; reflexivity.
Qed.

Lemma filter_none {A : Type} (p : A -> bool) (l : list A) :
  existsb p l = false -> filter p l = [].
Proof.
  induction l as [|a l IH]; cbn; [reflexivity|].
  destruct (p a); cbn; [discriminate | exact IH].
Qed.

Lemma filter_none_converse {A : Type} (p : A -> bool) (l : list A) :
  filter p l = [] -> existsb p l = false.
Proof.
  induction l as [|a l IH]; cbn; [reflexivity|].
  destruct (p a); cbn; [discriminate | exact IH].
Qed.

Lemma has_username_in (username : string) (us : list user_row) :
  existsb (has_username username) us = false -> ~ In username (map u_username us).
Proof.
  intros Hnone Hin. apply in_map_iff in Hin. destruct Hin as [r [Hname Hr]].
  assert (Hex : existsb (has_username username) us = true).
  { apply existsb_exists. exists r. split; [exact Hr|].
    unfold has_username. now rewrite Hname, String.eqb_refl. }
  congruence.
Qed.

Lemma unique_username_row (us : list user_row) (r : user_row) :
  NoDup (map u_username us) -> In r us ->
  filter (has_username (u_username r)) us = [r].
Proof.
  induction us as [|a rest IH]; cbn [map filter In]; intros Hnd Hin; [contradiction|].
  inversion Hnd as [|? ? Hnotin Hnd']; subst.
  destruct Hin as [->|Hin].
  - unfold has_username at 1. rewrite String.eqb_refl. f_equal.
    apply filter_none. destruct (existsb _ rest) eqn:Hex; [|reflexivity].
    exfalso. apply Hnotin. apply existsb_exists in Hex. destruct Hex as [x [Hx Hname]].
    apply in_map_iff. exists x. split; [|exact Hx].
    now apply String.eqb_eq.
  - unfold has_username at 1.
    destruct (String.eqb_spec (u_username a) (u_username r)) as [Heq|Hne].
    + exfalso. apply Hnotin. rewrite Heq. now apply in_map.
    + now apply IH.
Qed.


Lemma within_limit (secret : string) :
  too_long secret = false <-> char_length secret <= MAX_PASSWORD_SIZE.
Proof. unfold too_long. apply Z.ltb_ge. Qed.




(** C6: when [create_user] succeeds, logging in right afterwards with the same
    user name and password returns the user record with that user name and the
    role given at creation, provided passlib verifies a password against its
    own hash. *)
Theorem create_then_login {P : Passlib} {S : PasslibSound P}
    (salt username password role : string) (t : timestamp) (w : world) :
  fst (create_user salt username password role w) = Ok true ->
  exists id,
    login_user username password
      (at_time t (snd (create_user salt username password role w)))
    = (Ok (Some (mk_session_user id username role)),
       at_time t (snd (create_user salt username password role w))).
Proof.
  rewrite create_user_run.
  destruct (too_long password) eqn:Hsize; cbn [fst snd]; [discriminate|].
  destruct (existsb (has_username username) (users (store w))) eqn:Htaken;
    cbn [fst snd]; intros Hcreated; [discriminate|].
  exists (next_rowid (seq_users (store w)) (map u_id (users (store w)))).
  rewrite login_user_run. cbn [store at_time with_store users with_users].
  rewrite filter_app, (filter_none _ _ Htaken). cbn [filter app].
  unfold has_username. cbn [u_username].
  rewrite String.eqb_refl. cbn [u_username u_password u_id u_role].
  now rewrite (verify_hash salt password (proj1 (within_limit password) Hsize)).
Qed.

Lemma prefix_append (a b : string) : String.prefix a (a ++ b)%string = true.
Proof.
  induction a as [|c a IH]; cbn; [now destruct b|].
  destruct (Ascii.ascii_dec c c) as [_|Hne]; [exact IH | now contradiction Hne].
Qed.

Lemma append_assoc (a b c : string) : ((a ++ b) ++ c = a ++ (b ++ c))%string.
Proof.
  induction a as [|x a IH]; cbn; [reflexivity | now rewrite IH].
Qed.

Lemma has_separator_append (a b : string) :
  has_separator (a ++ String (Ascii.ascii_of_nat 36) b)%string = true.
Proof.
  induction a as [|c a IH]; cbn [append has_separator].
  - reflexivity.
  - rewrite IH. apply orb_true_r.
Qed.

Lemma demo_passlib_sound : PasslibSound demo_passlib.
Proof.
  intros salt password Hsize. unfold verify_password.
  rewrite (proj2 (within_limit password) Hsize).
  cbn [pbkdf2_sha256_hash pbkdf2_sha256_identify pbkdf2_sha256_verify demo_passlib].
  change (password ++ "$" ++ salt)%string
    with (password ++ String (Ascii.ascii_of_nat 36) salt)%string at 1.
  rewrite has_separator_append.
  change (password ++ String (Ascii.ascii_of_nat 36) salt)%string
    with (password ++ ("$" ++ salt))%string.
  rewrite <- append_assoc. now rewrite prefix_append.
Qed.

Lemma create_then_login_witness :
  exists id,
    login_user (P := demo_passlib) "amina" "pw-one"
      (at_time 1700000060
         (snd (create_user (P := demo_passlib) "s1" "amina" "pw-one" "student" seeded_world)))
    = (Ok (Some (mk_session_user id "amina" "student")),
       at_time 1700000060
         (snd (create_user (P := demo_passlib) "s1" "amina" "pw-one" "student" seeded_world))).
Proof.
  apply (create_then_login (P := demo_passlib) (S := demo_passlib_sound)
           "s1" "amina" "pw-one" "student" 1700000060 seeded_world).
  vm_compute. reflexivity.
Defined.

(** Where verification returns normally: for a user that exists and a password
    that [verify] answers [False] to, [login_user] returns [None] and leaves
    the world as it was; for a user name the table does not hold it returns
    the same [None] and leaves the same world. *)
Lemma login_failures_alike {P : Passlib}
    (r : user_row) (wrong_password unknown any_password : string) (w : world) :
  usernames_unique (store w) ->
  In r (users (store w)) ->
  verify_password wrong_password (u_password r) = Ok false ->
  existsb (has_username unknown) (users (store w)) = false ->
  login_user (u_username r) wrong_password w = (Ok None, w) /\
  login_user unknown any_password w = (Ok None, w) /\
  login_user (u_username r) wrong_password w = login_user unknown any_password w.
Proof.
  intros Hnd Hin Hwrong Hunknown.
  assert (Hknown : login_user (u_username r) wrong_password w = (Ok None, w)).
  { rewrite login_user_run, (unique_username_row _ r Hnd Hin). now rewrite Hwrong. }
  assert (Habsent : login_user unknown any_password w = (Ok None, w)).
  { rewrite login_user_run. now rewrite (filter_none _ _ Hunknown). }
  split; [exact Hknown|]. split; [exact Habsent|]. now rewrite Hknown, Habsent.
Qed.

Lemma login_failures_alike_witness :
  login_user (P := demo_passlib) "admin" "wrong" seeded_world = (Ok None, seeded_world) /\
  login_user (P := demo_passlib) "nobody" "admin123" seeded_world = (Ok None, seeded_world) /\
  login_user (P := demo_passlib) "admin" "wrong" seeded_world
  = login_user (P := demo_passlib) "nobody" "admin123" seeded_world.
Proof.
  apply (login_failures_alike (P := demo_passlib)
           (mk_user 1 "admin" "admin123$salt0" "admin" 1700000000)
           "wrong" "nobody" "admin123" seeded_world).
  - unfold usernames_unique. vm_compute. constructor; [intros [] | constructor].
  - vm_compute. auto.
  - reflexivity.
  - reflexivity.
Defined.

(** C7 fails on the code for a wrong password over passlib's size limit:
    [verify] is reached only when the user name has a row, and there it
    raises, while for a user name without a row the same password gives
    [None].  The two failures differ, and tell whether the user exists. *)
Theorem login_oversize_password_tells_users_apart {P : Passlib}
    (known unknown password : string) (w : world) :
  too_long password = true ->
  existsb (has_username known) (users (store w)) = true ->
  existsb (has_username unknown) (users (store w)) = false ->
  login_user known password w = (Raise PasswordSizeError, w) /\
  login_user unknown password w = (Ok None, w) /\
  login_user known password w <> login_user unknown password w.
Proof.
  intros Hsize Hknown Hunknown.
  assert (Hraise : login_user known password w = (Raise PasswordSizeError, w)).
  { rewrite login_user_run.
    destruct (filter (has_username known) (users (store w))) as [|r rest] eqn:Hrows.
    - rewrite (filter_none_converse _ _ Hrows) in Hknown. discriminate.
    - unfold verify_password. now rewrite Hsize. }
  assert (Hnone : login_user unknown password w = (Ok None, w)).
  { rewrite login_user_run. now rewrite (filter_none _ _ Hunknown). }
  split; [exact Hraise|]. split; [exact Hnone|]. rewrite Hraise, Hnone. discriminate.
Qed.

Lemma login_oversize_password_tells_users_apart_witness :
  login_user (P := demo_passlib) "admin" oversize_password seeded_world
  = (Raise PasswordSizeError, seeded_world) /\
  login_user (P := demo_passlib) "nobody" oversize_password seeded_world
  = (Ok None, seeded_world) /\
  login_user (P := demo_passlib) "admin" oversize_password seeded_world
  <> login_user (P := demo_passlib) "nobody" oversize_password seeded_world.
Proof.
  apply (login_oversize_password_tells_users_apart (P := demo_passlib)
           "admin" "nobody" oversize_password seeded_world).
  - vm_compute. reflexivity.
  - reflexivity.
  - reflexivity.
Defined.

(** ** Bootstrap *)

Lemma init_db_run {P : Passlib} (salt : string) (w : world) :
  snd (init_db salt w) = w \/
  (users (store w) = [] /\
   snd (init_db salt w)
   = with_store
       (with_users (store w)
          [mk_user (next_rowid (seq_users (store w)) []) DEFAULT_ADMIN_USER
             (pbkdf2_sha256_hash salt DEFAULT_ADMIN_PASS) "admin" (clock w)]
          (next_rowid (seq_users (store w)) []))
       w).
Proof.
  unfold init_db. cbn [execute connect store clock hd].
  destruct (users (store w)) as [|u us] eqn:Husers.
  - right. split; [reflexivity|]. reflexivity.
  - left. assert (Hcount : (Z.of_nat (List.length (u :: us)) =? 0) = false).
    { apply Z.eqb_neq. cbn [List.length]. lia. }
    rewrite Hcount. cbn [snd]. now rewrite close_commit_connect, with_store_same.
Qed.

(** C8: [init_db] seeds on emptiness.  When the user table has no row it
    returns normally having inserted one row, the account "admin" with role
    "admin" whose stored password is the passlib hash of "admin123", and
    nothing else; when the table has any row it leaves the world as it was. *)
Theorem init_db_seeds_when_empty {P : Passlib} (salt : string) (w : world) :
  (users (store w) = [] ->
   exists w',
     init_db salt w = (Ok tt, w') /\
     users (store w')
     = [mk_user (next_rowid (seq_users (store w)) []) DEFAULT_ADMIN_USER
          (pbkdf2_sha256_hash salt DEFAULT_ADMIN_PASS) "admin" (clock w)] /\
     progress (store w') = progress (store w) /\
     audit_logs (store w') = audit_logs (store w) /\
     open_connections w' = open_connections w) /\
  (users (store w) <> [] -> init_db salt w = (Ok tt, w)).
Proof.
  unfold init_db. cbn [execute connect store clock hd].
  destruct (users (store w)) as [|u us] eqn:Husers.
  - split; [intros _ | intros Hne; now contradiction Hne].
    cbn [List.length Z.of_nat Z.eqb existsb map app].
    eexists. split; [reflexivity|].
    cbn [store close commit users progress audit_logs with_users open_connections
         Nat.pred].
    repeat split.
  - split; [discriminate | intros _].
    assert (Hcount : (Z.of_nat (List.length (u :: us)) =? 0) = false).
    { apply Z.eqb_neq. cbn [List.length]. lia. }
    rewrite Hcount. rewrite close_commit_connect, with_store_same. reflexivity.
Qed.

Lemma init_db_seeds_when_empty_witness :
  (exists w',
     init_db (P := demo_passlib) "salt0" fresh_world = (Ok tt, w') /\
     users (store w') = [mk_user 1 "admin" "admin123$salt0" "admin" 1700000000]) /\
  init_db (P := demo_passlib) "salt1" seeded_world = (Ok tt, seeded_world).
Proof.
  destruct (init_db_seeds_when_empty (P := demo_passlib) "salt0" fresh_world)
    as [Hempty _].
  destruct (init_db_seeds_when_empty (P := demo_passlib) "salt1" seeded_world)
    as [_ Hfull].
  split.
  - destruct (Hempty eq_refl) as [w' [Hrun [Husers _]]].
    exists w'. split; [exact Hrun | exact Husers].
  - apply Hfull. vm_compute. discriminate.
Defined.

(** ** Invariants of the reachable worlds *)

Lemma max_id_bounds (ids : list Z) (id : Z) : In id ids -> id <= max_id ids.
Proof.
  induction ids as [|x ids IH]; cbn [In max_id fold_right]; [contradiction|].
  intros [->|Hin]; [lia|]. specialize (IH Hin). unfold max_id in IH. lia.
Qed.

Lemma next_rowid_fresh (seq : Z) (ids : list Z) : ~ In (next_rowid seq ids) ids.
Proof.
  intros Hin. apply max_id_bounds in Hin. unfold next_rowid in Hin. lia.
Qed.

Lemma upsert_ids (now : timestamp) (fresh user_id : Z) (subj chap comp status : string)
    (table : list progress_row) :
  map p_id (upsert now fresh user_id subj chap comp status table) = map p_id table \/
  map p_id (upsert now fresh user_id subj chap comp status table)
  = map p_id table ++ [fresh].
Proof.
  induction table as [|r rest IH]; cbn [upsert map app]; [now right|].
  destruct (has_key user_id subj chap comp r); cbn [map p_id]; [now left|].
  destruct IH as [-> | ->]; [now left | now right].
Qed.

Lemma upsert_keeps_ids_distinct (now : timestamp) (seq user_id : Z)
    (subj chap comp status : string) (table : list progress_row) :
  NoDup (map p_id table) ->
  NoDup (map p_id (upsert now (next_rowid seq (map p_id table))
                     user_id subj chap comp status table)).
Proof.
  intros Hnd.
  destruct (upsert_ids now (next_rowid seq (map p_id table)) user_id subj chap comp
              status table) as [-> | ->]; [exact Hnd|].
  apply NoDup_app; [exact Hnd | repeat constructor; intros [] |].
  intros x Hx [<-|[]]. exact (next_rowid_fresh _ _ Hx).
Qed.

Lemma has_key_other (user_id user_id' : Z) (subj chap comp subj' chap' comp' : string)
    (r r' : progress_row) :
  (user_id', subj', chap', comp') <> (user_id, subj, chap, comp) ->
  has_key user_id subj chap comp r = true ->
  p_user_id r' = p_user_id r -> p_subject r' = p_subject r ->
  p_chapter_name r' = p_chapter_name r -> p_component r' = p_component r ->
  has_key user_id' subj' chap' comp' r' = has_key user_id' subj' chap' comp' r /\
  has_key user_id' subj' chap' comp' r = false.
Proof.
  intros Hne Hkey Hu Hs Hc Hk. unfold has_key in *. rewrite Hu, Hs, Hc, Hk.
  split; [reflexivity|].
  apply andb_true_iff in Hkey. destruct Hkey as [Hkey Hk1].
  apply andb_true_iff in Hkey. destruct Hkey as [Hkey Hc1].
  apply andb_true_iff in Hkey. destruct Hkey as [Hu1 Hs1].
  apply Z.eqb_eq in Hu1. apply String.eqb_eq in Hs1, Hc1, Hk1.
  rewrite Hu1, Hs1, Hc1, Hk1.
  destruct (Z.eqb_spec user_id user_id'); [|reflexivity].
  destruct (String.eqb_spec subj subj'); [|reflexivity].
  destruct (String.eqb_spec chap chap'); [|reflexivity].
  destruct (String.eqb_spec comp comp'); [|reflexivity].
  exfalso. apply Hne. congruence.
Qed.

Lemma entries_for_upsert_other (now : timestamp) (fresh user_id user_id' : Z)
    (subj chap comp subj' chap' comp' status : string) (table : list progress_row) :
  (user_id', subj', chap', comp') <> (user_id, subj, chap, comp) ->
  List.length (entries_for user_id' subj' chap' comp'
                 (upsert now fresh user_id subj chap comp status table))
  = List.length (entries_for user_id' subj' chap' comp' table).
Proof.
  intros Hne. unfold entries_for.
  induction table as [|r rest IH]; cbn [upsert filter].
  - destruct (has_key_other user_id user_id' subj chap comp subj' chap' comp'
                (mk_progress fresh user_id subj chap comp status now)
                (mk_progress fresh user_id subj chap comp status now) Hne
                (has_key_refl _ _ _ _ _ _ _) eq_refl eq_refl eq_refl eq_refl) as [_ ->].
    reflexivity.
  - destruct (has_key user_id subj chap comp r) eqn:Hkey; cbn [filter].
    + destruct (has_key_other user_id user_id' subj chap comp subj' chap' comp' r
                  (mk_progress (p_id r) (p_user_id r) (p_subject r) (p_chapter_name r)
                     (p_component r) status now) Hne Hkey eq_refl eq_refl eq_refl eq_refl)
        as [-> ->].
      reflexivity.
    + destruct (has_key user_id' subj' chap' comp' r); cbn [List.length]; now rewrite IH.
Qed.

Lemma key_eq_dec (k k' : Z * string * string * string) : {k' = k} + {k' <> k}.
Proof. repeat decide equality. Qed.

Lemma after_change_invariants (now : timestamp) (user_id : Z)
    (subj chap comp status : string) (db : database) :
  progress_ids_distinct db /\ usernames_unique db /\ one_row_per_key db ->
  progress_ids_distinct (after_change now user_id subj chap comp status db) /\
  usernames_unique (after_change now user_id subj chap comp status db) /\
  one_row_per_key (after_change now user_id subj chap comp status db).
Proof.
  intros [Hids [Hnames Hkeys]].
  unfold progress_ids_distinct, usernames_unique, one_row_per_key, after_change.
  change (users (after_audit now user_id "UPDATE_PROGRESS"
                   (audit_details subj chap comp status)
                   (after_upsert now user_id subj chap comp status db)))
    with (users (after_upsert now user_id subj chap comp status db)).
  rewrite after_audit_progress, (after_upsert_progress _ _ _ _ _ _ _ Hids).
  split; [now apply upsert_keeps_ids_distinct|]. split.
  - destruct (after_upsert_audit_logs now user_id subj chap comp status db)
      as [_ [_ ->]]. exact Hnames.
  - intros user_id' subj' chap' comp'.
    destruct (key_eq_dec (user_id, subj, chap, comp) (user_id', subj', chap', comp'))
      as [Heq|Hne].
    + injection Heq as Hu Hs Hc Hk. subst user_id' subj' chap' comp'.
      rewrite entries_for_upsert.
      specialize (Hkeys user_id subj chap comp). lia.
    + rewrite (entries_for_upsert_other _ _ _ _ _ _ _ _ _ _ _ _ Hne). apply Hkeys.
Qed.

(** X6: every world the program can reach satisfies the constraints of the schema
    (distinct primary keys in the progress table, unique user names) and holds
    at most one progress row per composite key. *)
Lemma reachable_invariants {P : Passlib} (w : world) :
  reachable w ->
  progress_ids_distinct (store w) /\ usernames_unique (store w) /\
  one_row_per_key (store w).
Proof.
  induction 1 as [t | t w _ IH | salt w _ IH | salt username password role w _ IH
                  | username password w _ IH | user_id action details w _ IH
                  | user_id subj chap comp picked w _ IH].
  - split; [constructor | split; [constructor|]].
    intros user_id subj chap comp. cbn. lia.
  - exact IH.
  - destruct (init_db_run salt w) as [-> | [Hempty ->]]; [exact IH|].
    destruct IH as [Hids [_ Hkeys]]. cbn [store with_store].
    repeat split; [exact Hids | | exact Hkeys].
    unfold usernames_unique. cbn [users with_users map].
    constructor; [intros [] | constructor].
  - rewrite create_user_run. destruct (too_long password); [exact IH|].
    destruct (existsb (has_username username) (users (store w))) eqn:Htaken;
      cbn [snd]; [exact IH|].
    destruct IH as [Hids [Hnames Hkeys]]. cbn [store with_store].
    repeat split; [exact Hids | | exact Hkeys].
    unfold usernames_unique in *. cbn [users with_users]. rewrite map_app.
    apply NoDup_app; [exact Hnames | repeat constructor; intros [] |].
    intros x Hx [<-|[]]. exact (has_username_in _ _ Htaken Hx).
  - rewrite login_user_run. exact IH.
  - rewrite log_audit_run. exact IH.
  - destruct (view_subjects_cell_run user_id subj chap comp picked w) as [idx [_ ->]].
    destruct (_ =? _)%string; cbn [snd store with_store]; [exact IH|].
    now apply after_change_invariants.
Qed.

(** ** The bootstrap scenario, run

    A fresh store, bootstrapped, holds exactly the admin account; logging in
    as "admin" with the default password gives the record with role "admin",
    and a wrong password gives [None]. *)
Example bootstrap_scenario :
  List.length (users (store seeded_world)) = 1%nat /\
  fst (login_user (P := demo_passlib) DEFAULT_ADMIN_USER DEFAULT_ADMIN_PASS seeded_world)
  = Ok (Some (mk_session_user 1 "admin" "admin")) /\
  fst (login_user (P := demo_passlib) DEFAULT_ADMIN_USER "wrong" seeded_world) = Ok None.
Proof. vm_compute. auto. Qed.

(** * Further properties of the services and pages *)

(** ** Logging in *)

(** X1: [login_user] never writes.  For a user name without a row it returns
    [None].  It returns a user record only for a row of the table that carries
    the user name asked for and whose stored hash verifies the password, and
    the record is that row's id, user name and role.  It raises only what
    [verify] raises on such a row: for a password over the size limit, or for
    a stored value that is not a hash.  Where user names are unique the
    outcome is exactly that of [verify] on the user's row. *)
Theorem login_user_exact {P : Passlib} (username password : string) (w : world) :
  snd (login_user username password w) = w /\
  (existsb (has_username username) (users (store w)) = false ->
   fst (login_user username password w) = Ok None) /\
  (forall s, fst (login_user username password w) = Ok (Some s) ->
     exists r, In r (users (store w)) /\ u_username r = username /\
               verify_password password (u_password r) = Ok true /\
               s = mk_session_user (u_id r) username (u_role r)) /\
  (forall e, fst (login_user username password w) = Raise e ->
     exists r, In r (users (store w)) /\ u_username r = username /\
               verify_password password (u_password r) = Raise e) /\
  (usernames_unique (store w) ->
   forall r, In r (users (store w)) -> u_username r = username ->
     fst (login_user username password w)
     = match verify_password password (u_password r) with
       | Ok true => Ok (Some (mk_session_user (u_id r) username (u_role r)))
       | Ok false => Ok None
       | Raise e => Raise e
       end).
Proof.
  rewrite login_user_run. cbn [fst snd].
  split; [reflexivity|]. split; [|split; [|split]].
  - intros Hnone. now rewrite (filter_none _ _ Hnone).
  - intros s Hs.
    destruct (filter (has_username username) (users (store w))) as [|r rest] eqn:Hrows;
      [discriminate|].
    assert (Hr : In r (filter (has_username username) (users (store w))))
      by (rewrite Hrows; now left).
    apply filter_In in Hr. destruct Hr as [Hin Hname].
    apply String.eqb_eq in Hname.
    destruct (verify_password password (u_password r)) as [[|]|e] eqn:Hverify;
      try discriminate.
    exists r. split; [exact Hin|]. split; [exact Hname|]. split; [exact Hverify|].
    rewrite <- Hname. congruence.
  - intros e He.
    destruct (filter (has_username username) (users (store w))) as [|r rest] eqn:Hrows;
      [discriminate|].
    assert (Hr : In r (filter (has_username username) (users (store w))))
      by (rewrite Hrows; now left).
    apply filter_In in Hr. destruct Hr as [Hin Hname].
    apply String.eqb_eq in Hname.
    destruct (verify_password password (u_password r)) as [[|]|e'] eqn:Hverify;
      try discriminate.
    exists r. split; [exact Hin|]. split; [exact Hname|]. rewrite Hverify. congruence.
  - intros Hunique r Hin Hname. subst username.
    now rewrite (unique_username_row _ r Hunique Hin).
Qed.

Lemma login_user_exact_witness :
  fst (login_user (P := demo_passlib) "admin" oversize_password seeded_world)
  = Raise PasswordSizeError /\
  fst (login_user (P := demo_passlib) "admin" "admin123" seeded_world)
  = Ok (Some (mk_session_user 1 "admin" "admin")).
Proof.
  destruct (login_user_exact (P := demo_passlib) "admin" oversize_password seeded_world)
    as [_ [_ [_ [_ Hlong]]]].
  destruct (login_user_exact (P := demo_passlib) "admin" "admin123" seeded_world)
    as [_ [_ [_ [_ Hgood]]]].
  split.
  - rewrite (Hlong ltac:(unfold usernames_unique; vm_compute;
                         constructor; [intros [] | constructor])
               (mk_user 1 "admin" "admin123$salt0" "admin" 1700000000)
               ltac:(vm_compute; auto) eq_refl).
    vm_compute. reflexivity.
  - rewrite (Hgood ltac:(unfold usernames_unique; vm_compute;
                         constructor; [intros [] | constructor])
               (mk_user 1 "admin" "admin123$salt0" "admin" 1700000000)
               ltac:(vm_compute; auto) eq_refl).
    vm_compute. reflexivity.
Defined.

(** ** Bootstrap, again *)

Lemma init_db_empty {P : Passlib} (salt : string) (w : world) :
  users (store w) = [] ->
  init_db salt w
  = (Ok tt,
     with_store
       (with_users (store w)
          [mk_user (next_rowid (seq_users (store w)) []) DEFAULT_ADMIN_USER
             (pbkdf2_sha256_hash salt DEFAULT_ADMIN_PASS) "admin" (clock w)]
          (next_rowid (seq_users (store w)) []))
       w).
Proof.
  intros Hempty. unfold init_db. cbn [execute connect store clock hd].
  rewrite Hempty. reflexivity.
Qed.

Lemma init_db_nonempty {P : Passlib} (salt : string) (w : world) :
  users (store w) <> [] -> init_db salt w = (Ok tt, w).
Proof.
  intros Hsome. unfold init_db. cbn [execute connect store clock hd].
  destruct (users (store w)) as [|u us] eqn:Husers; [now contradiction Hsome|].
  assert (Hcount : (Z.of_nat (List.length (u :: us)) =? 0) = false).
  { apply Z.eqb_neq. cbn [List.length]. lia. }
  rewrite Hcount. now rewrite close_commit_connect, with_store_same.
Qed.

(** X2: [main] calls [init_db] at the start of every run.  The call never raises
    and leaves a user table that is not empty, so every later call, at any
    time and with any salt, changes nothing: the admin account is seeded at
    most once. *)
Theorem init_db_idempotent {P : Passlib} (salt1 salt2 : string) (t : timestamp) (w : world) :
  fst (init_db salt1 w) = Ok tt /\
  users (store (snd (init_db salt1 w))) <> [] /\
  init_db salt2 (at_time t (snd (init_db salt1 w)))
  = (Ok tt, at_time t (snd (init_db salt1 w))).
Proof.
  assert (Hfirst : fst (init_db salt1 w) = Ok tt /\
                   users (store (snd (init_db salt1 w))) <> []).
  { destruct (users (store w)) as [|u us] eqn:Husers.
    - rewrite (init_db_empty salt1 w Husers). cbn. split; [reflexivity | discriminate].
    - assert (Hsome : users (store w) <> []) by (rewrite Husers; discriminate).
      rewrite (init_db_nonempty salt1 w Hsome). cbn [fst snd]. now split. }
  destruct Hfirst as [Hok Hsome]. split; [exact Hok|]. split; [exact Hsome|].
  apply init_db_nonempty. exact Hsome.
Qed.

(** X3: on a store without users, bootstrapping and then logging in as "admin"
    with the default password gives the admin's record, role "admin",
    whenever passlib verifies a password against its own hash. *)
Theorem bootstrap_then_login {P : Passlib} {S : PasslibSound P}
    (salt : string) (t : timestamp) (w : world) :
  users (store w) = [] ->
  login_user DEFAULT_ADMIN_USER DEFAULT_ADMIN_PASS (at_time t (snd (init_db salt w)))
  = (Ok (Some (mk_session_user (next_rowid (seq_users (store w)) []) "admin" "admin")),
     at_time t (snd (init_db salt w))).
Proof.
  intros Hempty. rewrite (init_db_empty salt w Hempty), login_user_run.
  cbn [snd store at_time with_store users with_users filter].
  unfold has_username. cbn [u_username]. rewrite String.eqb_refl.
  cbn [u_username u_password u_id u_role].
  rewrite (verify_hash salt DEFAULT_ADMIN_PASS) by (vm_compute; discriminate).
  reflexivity.
Qed.

Lemma bootstrap_then_login_witness :
  login_user (P := demo_passlib) DEFAULT_ADMIN_USER DEFAULT_ADMIN_PASS
    (at_time 1700000001 (snd (init_db (P := demo_passlib) "salt0" fresh_world)))
  = (Ok (Some (mk_session_user (next_rowid (seq_users (store fresh_world)) [])
                 "admin" "admin")),
     at_time 1700000001 (snd (init_db (P := demo_passlib) "salt0" fresh_world))).
Proof.
  apply (bootstrap_then_login (P := demo_passlib) (S := demo_passlib_sound)
           "salt0" 1700000001 fresh_world).
  reflexivity.
Defined.

(** ** Nothing is ever deleted *)

Lemma row_identity_set_status (now : timestamp) (status : string) (id : Z)
    (table : list progress_row) :
  map row_identity (map (set_status_where_id now status id) table)
  = map row_identity table.
Proof.
  induction table as [|r rest IH]; cbn [map]; [reflexivity|].
  rewrite IH. f_equal. unfold set_status_where_id. now destruct (p_id r =? id).
Qed.

Lemma after_upsert_grows (now : timestamp) (user_id : Z) (subj chap comp status : string)
    (db : database) :
  exists added,
    map row_identity (progress (after_upsert now user_id subj chap comp status db))
    = map row_identity (progress db) ++ added.
Proof.
  unfold after_upsert.
  destruct (map p_id (entries_for user_id subj chap comp (progress db))) as [|id ids].
  - cbn [progress with_progress]. rewrite map_app. eauto.
  - cbn [progress with_progress]. rewrite row_identity_set_status.
    exists []. now rewrite app_nil_r.
Qed.

Lemma grows_refl (w : world) : grows w w.
Proof. repeat split; exists []; now rewrite app_nil_r. Qed.

Lemma grows_same_store (w w' : world) : store w' = store w -> grows w w'.
Proof. intros Heq. unfold grows. rewrite Heq. apply grows_refl. Qed.

Lemma grows_trans (w1 w2 w3 : world) : grows w1 w2 -> grows w2 w3 -> grows w1 w3.
Proof.
  intros [[u1 Hu1] [[a1 Ha1] [p1 Hp1]]] [[u2 Hu2] [[a2 Ha2] [p2 Hp2]]].
  repeat split.
  - exists (u1 ++ u2). now rewrite Hu2, Hu1, app_assoc.
  - exists (a1 ++ a2). now rewrite Ha2, Ha1, app_assoc.
  - exists (p1 ++ p2). now rewrite Hp2, Hp1, app_assoc.
Qed.

Lemma step_grows {P : Passlib} (w w' : world) : step w w' -> grows w w'.
Proof.
  intros Hstep.
  destruct Hstep as [t w | salt w | salt username password role w | username password w
                     | user_id action details w | subjects user_id w
                     | user_id subj chap comp picked w].
  - now apply grows_same_store.
  - destruct (init_db_run salt w) as [-> | [Hempty ->]]; [apply grows_refl|].
    repeat split; cbn [store with_store users audit_logs progress with_users].
    + rewrite Hempty. eexists. reflexivity.
    + exists []. now rewrite app_nil_r.
    + exists []. now rewrite app_nil_r.
  - rewrite create_user_run. destruct (too_long password); [apply grows_refl|].
    destruct (existsb (has_username username) (users (store w)));
      [now apply grows_same_store|].
    repeat split; cbn [snd store with_store users audit_logs progress with_users].
    + eexists. reflexivity.
    + exists []. now rewrite app_nil_r.
    + exists []. now rewrite app_nil_r.
  - rewrite login_user_run. apply grows_refl.
  - rewrite log_audit_run.
    repeat split; cbn [snd store with_store users audit_logs progress with_audit_logs
                       after_audit].
    + exists []. now rewrite app_nil_r.
    + eexists. reflexivity.
    + exists []. now rewrite app_nil_r.
  - rewrite global_rate_run. apply grows_refl.
  - destruct (view_subjects_cell_run user_id subj chap comp picked w) as [idx [_ ->]].
    destruct (_ =? _)%string; [apply grows_refl|].
    unfold grows. cbn [snd store with_store]. unfold after_change.
    destruct (after_upsert_audit_logs (clock w) user_id subj chap comp
                (selectbox STATUS_OPTS idx picked) (store w)) as [Hlogs [_ Husers]].
    split; [|split].
    + exists []. rewrite app_nil_r. exact Husers.
    + unfold after_audit. cbn [audit_logs with_audit_logs]. rewrite Hlogs.
      eexists. reflexivity.
    + rewrite after_audit_progress. apply after_upsert_grows.
Qed.

(** X4: along any history of calls, no row of any table is deleted or moved: the
    user table and the audit log only gain rows at their end, and every
    progress row stays in its place with its id, user, subject, chapter and
    component (only its status and timestamp may change). *)
Theorem nothing_is_deleted {P : Passlib} (w w' : world) :
  steps w w' -> grows w w'.
Proof.
  induction 1 as [w | w w1 w2 _ IH Hstep]; [apply grows_refl|].
  exact (grows_trans _ _ _ IH (step_grows _ _ Hstep)).
Qed.

Lemma nothing_is_deleted_witness : grows fresh_world studied_world.
Proof.
  apply (nothing_is_deleted (P := demo_passlib) fresh_world studied_world).
  apply (steps_more fresh_world seeded_world studied_world).
  - apply (steps_more fresh_world fresh_world seeded_world).
    + apply steps_none.
    + exact (step_init_db "salt0" fresh_world).
  - exact (step_view_subjects_cell 1 "Physique" "Thermodynamique" "TD" (Some "En cours")
             seeded_world).
Defined.

(** ** Identifiers *)

Lemma increasing_snoc (ids : list Z) (id : Z) :
  ids_increasing ids -> (forall x, In x ids -> x < id) -> ids_increasing (ids ++ [id]).
Proof.
  unfold ids_increasing.
  induction ids as [|y ids IH]; cbn [app]; intros Hsorted Hbelow.
  - repeat constructor.
  - inversion Hsorted as [|? ? Hrest Hall]; subst. constructor.
    + apply IH; [exact Hrest|]. intros x Hx. apply Hbelow. now right.
    + apply Forall_app. split; [exact Hall|]. constructor; [|constructor].
      apply Hbelow. now left.
Qed.

Lemma increasing_next_rowid (seq : Z) (ids : list Z) :
  ids_increasing ids -> ids_increasing (ids ++ [next_rowid seq ids]).
Proof.
  intros Hsorted. apply increasing_snoc; [exact Hsorted|].
  intros x Hx. apply max_id_bounds in Hx. unfold next_rowid. lia.
Qed.

Lemma set_status_ids (now : timestamp) (status : string) (id : Z)
    (table : list progress_row) :
  map p_id (map (set_status_where_id now status id) table) = map p_id table.
Proof.
  induction table as [|r rest IH]; cbn [map]; [reflexivity|].
  rewrite IH. f_equal. unfold set_status_where_id. now destruct (p_id r =? id).
Qed.

Lemma after_upsert_ids (now : timestamp) (user_id : Z) (subj chap comp status : string)
    (db : database) :
  map p_id (progress (after_upsert now user_id subj chap comp status db))
  = map p_id (progress db) \/
  map p_id (progress (after_upsert now user_id subj chap comp status db))
  = map p_id (progress db) ++ [next_rowid (seq_progress db) (map p_id (progress db))].
Proof.
  unfold after_upsert.
  destruct (map p_id (entries_for user_id subj chap comp (progress db))) as [|id ids];
    cbn [progress with_progress].
  - right. now rewrite map_app.
  - left. apply set_status_ids.
Qed.

(** X5: in every world the program can reach from an empty file, the identifiers
    of each table grow strictly along its rows: a row inserted later has a
    larger id than every row inserted before it. *)
Theorem reachable_ids_increasing {P : Passlib} (w : world) :
  reachable w ->
  ids_increasing (map u_id (users (store w))) /\
  ids_increasing (map p_id (progress (store w))) /\
  ids_increasing (map a_id (audit_logs (store w))).
Proof.
  induction 1 as [t | t w _ IH | salt w _ IH | salt username password role w _ IH
                  | username password w _ IH | user_id action details w _ IH
                  | user_id subj chap comp picked w _ IH].
  - cbn. split; [|split]; constructor.
  - exact IH.
  - destruct (init_db_run salt w) as [-> | [Hempty ->]]; [exact IH|].
    destruct IH as [_ [Hp Ha]]. cbn [store with_store users progress audit_logs with_users].
    split; [|split; assumption]. cbn [map]. repeat constructor.
  - rewrite create_user_run. destruct (too_long password); [exact IH|].
    destruct (existsb (has_username username) (users (store w))); cbn [snd]; [exact IH|].
    destruct IH as [Hu [Hp Ha]]. cbn [store with_store users progress audit_logs with_users].
    split; [|split; assumption]. rewrite map_app. cbn [map u_id].
    now apply increasing_next_rowid.
  - rewrite login_user_run. exact IH.
  - rewrite log_audit_run. destruct IH as [Hu [Hp Ha]].
    cbn [snd store with_store users progress audit_logs with_audit_logs after_audit].
    split; [assumption|]. split; [assumption|]. rewrite map_app. cbn [map a_id].
    now apply increasing_next_rowid.
  - destruct (view_subjects_cell_run user_id subj chap comp picked w) as [idx [_ ->]].
    destruct (_ =? _)%string; cbn [snd store with_store]; [exact IH|].
    destruct IH as [Hu [Hp Ha]]. unfold after_change.
    destruct (after_upsert_audit_logs (clock w) user_id subj chap comp
                (selectbox STATUS_OPTS idx picked) (store w)) as [Hlogs [Hseq Husers]].
    split; [|split].
    + change (users (after_audit ?n ?u ?a ?d ?db)) with (users db). now rewrite Husers.
    + rewrite after_audit_progress.
      destruct (after_upsert_ids (clock w) user_id subj chap comp
                  (selectbox STATUS_OPTS idx picked) (store w)) as [-> | ->];
        [exact Hp | now apply increasing_next_rowid].
    + unfold after_audit. cbn [audit_logs with_audit_logs]. rewrite Hlogs, map_app.
      cbn [map a_id]. rewrite Hseq. now apply increasing_next_rowid.
Qed.

Lemma studied_world_reachable : reachable (P := demo_passlib) studied_world.
Proof.
  apply (reach_view_subjects_cell 1 "Physique" "Thermodynamique" "TD" (Some "En cours")
           seeded_world).
  apply (reach_init_db "salt0" fresh_world).
  apply (reach_start 1700000000).
Qed.

Lemma reachable_ids_increasing_witness :
  ids_increasing (map u_id (users (store studied_world))) /\
  ids_increasing (map p_id (progress (store studied_world))) /\
  ids_increasing (map a_id (audit_logs (store studied_world))).
Proof.
  exact (reachable_ids_increasing (P := demo_passlib) studied_world studied_world_reachable).
Defined.

Lemma reachable_invariants_witness :
  progress_ids_distinct (store studied_world) /\ usernames_unique (store studied_world) /\
  one_row_per_key (store studied_world).
Proof.
  exact (reachable_invariants (P := demo_passlib) studied_world studied_world_reachable).
Defined.

(** ** One status change and the rest of the table *)

Lemma stored_status_upsert_other (now : timestamp) (fresh user_id user_id' : Z)
    (subj chap comp subj' chap' comp' status : string) (table : list progress_row) :
  (user_id', subj', chap', comp') <> (user_id, subj, chap, comp) ->
  stored_status user_id' subj' chap' comp'
    (upsert now fresh user_id subj chap comp status table)
  = stored_status user_id' subj' chap' comp' table.
Proof.
  intros Hne. unfold stored_status.
  induction table as [|r rest IH]; cbn [upsert find].
  - destruct (has_key_other user_id user_id' subj chap comp subj' chap' comp'
                (mk_progress fresh user_id subj chap comp status now)
                (mk_progress fresh user_id subj chap comp status now) Hne
                (has_key_refl _ _ _ _ _ _ _) eq_refl eq_refl eq_refl eq_refl) as [_ ->].
    reflexivity.
  - destruct (has_key user_id subj chap comp r) eqn:Hkey; cbn [find].
    + destruct (has_key_other user_id user_id' subj chap comp subj' chap' comp' r
                  (mk_progress (p_id r) (p_user_id r) (p_subject r) (p_chapter_name r)
                     (p_component r) status now) Hne Hkey eq_refl eq_refl eq_refl eq_refl)
        as [-> ->].
      reflexivity.
    + destruct (has_key user_id' subj' chap' comp' r); [reflexivity | exact IH].
Qed.

(** X7: where the primary keys of the progress table are distinct, a status update
    for one composite key leaves the status read for every other key, of the
    same user or of another, as it was, and leaves the user table alone. *)
Theorem setStatus_other_keys (user_id user_id' : Z)
    (subj chap comp subj' chap' comp' new_status : string) (w : world) :
  progress_ids_distinct (store w) ->
  (user_id', subj', chap', comp') <> (user_id, subj, chap, comp) ->
  stored_status user_id' subj' chap' comp'
    (progress (store (snd (setStatus user_id subj chap comp new_status w))))
  = stored_status user_id' subj' chap' comp' (progress (store w)) /\
  users (store (snd (setStatus user_id subj chap comp new_status w))) = users (store w).
Proof.
  intros Hids Hne. rewrite setStatus_run.
  destruct (new_status =? _)%string; cbn [snd store with_store]; [now split|].
  unfold after_change. split.
  - rewrite after_audit_progress, (after_upsert_progress _ _ _ _ _ _ _ Hids).
    now apply stored_status_upsert_other.
  - destruct (after_upsert_audit_logs (clock w) user_id subj chap comp new_status (store w))
      as [_ [_ Husers]].
    exact Husers.
Qed.

Lemma setStatus_other_keys_witness :
  stored_status 1 "Physique" "Thermodynamique" "TD"
    (progress (store (snd (setStatus 1 "Physique" "Thermodynamique" "TP" "Fait"
                             studied_world))))
  = stored_status 1 "Physique" "Thermodynamique" "TD" (progress (store studied_world)) /\
  users (store (snd (setStatus 1 "Physique" "Thermodynamique" "TP" "Fait" studied_world)))
  = users (store studied_world).
Proof.
  apply (setStatus_other_keys 1 1 "Physique" "Thermodynamique" "TP"
           "Physique" "Thermodynamique" "TD" "Fait" studied_world).
  - exact studied_world_ids_distinct.
  - discriminate.
Defined.

Lemma count_fait_upsert (now : timestamp) (fresh user_id user_id' : Z)
    (subj chap comp status : string) (table : list progress_row) :
  count_fait user_id' (upsert now fresh user_id subj chap comp status table)
  = count_fait user_id' table
    + (if user_id =? user_id'
       then (if (status =? "Fait")%string then 1 else 0)
            - (if (stored_status user_id subj chap comp table =? "Fait")%string
               then 1 else 0)
       else 0).
Proof.
  unfold stored_status.
  induction table as [|r rest IH]; cbn [upsert count_fait find].
  - cbn [p_user_id p_status]. change ("Non fait" =? "Fait")%string with false.
    destruct (user_id =? user_id'), (status =? "Fait")%string; cbn [andb]; lia.
  - destruct (has_key user_id subj chap comp r) eqn:Hkey; cbn [count_fait].
    + cbn [p_user_id p_status].
      assert (Huser : p_user_id r = user_id).
      { unfold has_key in Hkey. apply andb_true_iff in Hkey. destruct Hkey as [Hkey _].
        apply andb_true_iff in Hkey. destruct Hkey as [Hkey _].
        apply andb_true_iff in Hkey. destruct Hkey as [Hkey _].
        now apply Z.eqb_eq. }
      rewrite Huser.
      destruct (user_id =? user_id'), (status =? "Fait")%string,
        (p_status r =? "Fait")%string; cbn [andb]; lia.
    + rewrite IH. lia.
Qed.

(** X8: where the primary keys of the progress table are distinct, a status update
    that changes the status moves the user's count of "Fait" rows, which the
    dashboard shows, by one up when the new status is "Fait", by one down
    when the old one was, and not at all otherwise; the counts of all other
    users stay as they were. *)
Theorem setStatus_count_fait (user_id user_id' : Z) (subj chap comp new_status : string)
    (w : world) :
  progress_ids_distinct (store w) ->
  new_status <> stored_status user_id subj chap comp (progress (store w)) ->
  count_fait user_id' (progress (store (snd (setStatus user_id subj chap comp new_status w))))
  = count_fait user_id' (progress (store w))
    + (if user_id =? user_id'
       then (if (new_status =? "Fait")%string then 1 else 0)
            - (if (stored_status user_id subj chap comp (progress (store w)) =? "Fait")%string
               then 1 else 0)
       else 0).
Proof.
  intros Hids Hne. rewrite setStatus_run.
  rewrite (proj2 (String.eqb_neq _ _) Hne). cbn [snd store with_store].
  unfold after_change.
  rewrite after_audit_progress, (after_upsert_progress _ _ _ _ _ _ _ Hids).
  apply count_fait_upsert.
Qed.

Lemma setStatus_count_fait_witness :
  count_fait 1
    (progress (store (snd (setStatus 1 "Physique" "Thermodynamique" "TD" "Fait"
                             studied_world))))
  = count_fait 1 (progress (store studied_world)) + 1.
Proof.
  exact (setStatus_count_fait 1 1 "Physique" "Thermodynamique" "TD" "Fait" studied_world
           studied_world_ids_distinct ltac:(vm_compute; discriminate)).
Defined.

(** ** A select box nobody touched *)

Lemma index_nth (x : string) (options : list string) (i : nat) :
  index x options = Ok i -> nth i options "" = x.
Proof.
  revert i. induction options as [|y rest IH]; cbn [index]; intros i Hi; [discriminate|].
  destruct (String.eqb_spec y x) as [Heq|Hne].
  - injection Hi as <-. exact Heq.
  - destruct (index x rest) as [j|e]; [|discriminate].
    injection Hi as <-. cbn [nth]. now apply IH.
Qed.

Lemma contains_index (x : string) (options : list string) :
  contains x options = true -> exists i, index x options = Ok i.
Proof.
  unfold contains.
  induction options as [|y rest IH]; cbn [existsb index]; [discriminate|].
  destruct (y =? x)%string; cbn [orb]; [eauto|].
  intros Hrest. destruct (IH Hrest) as [i ->]. eauto.
Qed.

(** X9: the cell whose select box was left alone.  When the stored (or default)
    status is one of the three options, the box shows it and the cell writes
    nothing.  When the stored status is not one of them, the box shows
    "Non fait", which differs from it, so the mere rendering of the cell
    writes: it logs an UPDATE_PROGRESS row, asks for a rerun and, where the
    primary keys are distinct, leaves "Non fait" as the stored status. *)
Theorem untouched_cell (user_id : Z) (subj chap comp : string) (w : world) :
  (contains (stored_status user_id subj chap comp (progress (store w))) STATUS_OPTS = true ->
   view_subjects_cell user_id subj chap comp None w = (Ok false, w)) /\
  (contains (stored_status user_id subj chap comp (progress (store w))) STATUS_OPTS = false ->
   fst (view_subjects_cell user_id subj chap comp None w) = Ok true /\
   audit_logs (store (snd (view_subjects_cell user_id subj chap comp None w)))
   = audit_logs (store w) ++
     [mk_audit (next_rowid (seq_audit (store w)) (map a_id (audit_logs (store w))))
        user_id "UPDATE_PROGRESS"
        (subj ++ " > " ++ chap ++ " > " ++ comp ++ " : Non fait")%string (clock w)] /\
   (progress_ids_distinct (store w) ->
    stored_status user_id subj chap comp
      (progress (store (snd (view_subjects_cell user_id subj chap comp None w))))
    = "Non fait")).
Proof.
  destruct (view_subjects_cell_run user_id subj chap comp None w) as [idx [Hidx Hrun]].
  rewrite Hrun. clear Hrun. unfold current_idx in Hidx. cbn [selectbox].
  split; intros Hin; rewrite Hin in Hidx.
  - rewrite (index_nth _ _ _ Hidx). now rewrite String.eqb_refl.
  - injection Hidx as <-. cbn [nth STATUS_OPTS].
    assert (Hne : ("Non fait" =? stored_status user_id subj chap comp (progress (store w)))%string
                  = false).
    { unfold contains, STATUS_OPTS in Hin. cbn [existsb] in Hin.
      apply orb_false_iff in Hin. tauto. }
    rewrite Hne. cbn [fst snd store with_store]. unfold after_change.
    split; [reflexivity|]. split.
    + destruct (after_upsert_audit_logs (clock w) user_id subj chap comp "Non fait" (store w))
        as [Hlogs [Hseq _]].
      unfold after_audit. cbn [audit_logs with_audit_logs]. now rewrite Hlogs, Hseq.
    + intros Hids. rewrite after_audit_progress, (after_upsert_progress _ _ _ _ _ _ _ Hids).
      apply stored_status_upsert.
Qed.

Lemma untouched_cell_witness :
  view_subjects_cell 1 "Physique" "Thermodynamique" "TD" None studied_world
  = (Ok false, studied_world).
Proof.
  destruct (untouched_cell 1 "Physique" "Thermodynamique" "TD" studied_world)
    as [Hshown _].
  apply Hshown. reflexivity.
Defined.

(** ** The subject page *)

Lemma view_subjects_cell_false (user_id : Z) (subj chap comp : string)
    (picked : option string) (w : world) :
  fst (view_subjects_cell user_id subj chap comp picked w) = Ok false ->
  view_subjects_cell user_id subj chap comp picked w = (Ok false, w).
Proof.
  destruct (view_subjects_cell_run user_id subj chap comp picked w) as [idx [_ ->]].
  destruct (_ =? _)%string; cbn [fst]; [reflexivity | discriminate].
Qed.

Lemma view_subjects_cell_result (user_id : Z) (subj chap comp : string)
    (picked : option string) (w : world) :
  exists rerun, fst (view_subjects_cell user_id subj chap comp picked w) = Ok rerun.
Proof.
  destruct (view_subjects_cell_run user_id subj chap comp picked w) as [idx [_ ->]].
  destruct (_ =? _)%string; cbn [fst]; eauto.
Qed.

Lemma run_cells_run (user_id : Z) (picks : string -> option string) (todo : list cell)
    (w : world) :
  (run_cells user_id picks todo w = (Ok false, w) /\
   forall subj chap comp, In (subj, chap, comp) todo ->
     view_subjects_cell user_id subj chap comp (picks (widget_key subj chap comp)) w
     = (Ok false, w)) \/
  (exists subj chap comp,
     In (subj, chap, comp) todo /\
     fst (view_subjects_cell user_id subj chap comp (picks (widget_key subj chap comp)) w)
     = Ok true /\
     run_cells user_id picks todo w
     = (Ok true,
        snd (view_subjects_cell user_id subj chap comp
               (picks (widget_key subj chap comp)) w))).
Proof.
  induction todo as [|[[subj chap] comp] rest IH]; cbn [run_cells].
  - left. split; [reflexivity|]. intros ? ? ? [].
  - unfold bind.
    destruct (view_subjects_cell_result user_id subj chap comp
                (picks (widget_key subj chap comp)) w) as [[|] Hrerun].
    + right. exists subj, chap, comp. split; [now left|]. split; [exact Hrerun|].
      destruct (view_subjects_cell _ _ _ _ _ w) as [res w']. cbn [fst] in Hrerun.
      subst res. reflexivity.
    + rewrite (view_subjects_cell_false _ _ _ _ _ _ Hrerun).
      destruct IH as [[Hnone Hall] | [subj' [chap' [comp' [Hin [Htrue Hrun]]]]]].
      * left. split; [exact Hnone|]. intros s c k [Heq|Hin].
        -- injection Heq as <- <- <-.
           now apply view_subjects_cell_false.
        -- now apply Hall.
      * right. exists subj', chap', comp'. split; [now right|]. now split.
Qed.

Lemma default_widget_keys_fixed :
  nodup string_dec
    (map (fun c : cell => widget_key (fst (fst c)) (snd (fst c)) (snd c))
       (cells DEFAULT_SUBJECTS))
  = map (fun c : cell => widget_key (fst (fst c)) (snd (fst c)) (snd c))
      (cells DEFAULT_SUBJECTS).
Proof. vm_compute. reflexivity. Qed.

Lemma after_change_audit_logs (now : timestamp) (user_id : Z)
    (subj chap comp status : string) (db : database) :
  audit_logs (after_change now user_id subj chap comp status db)
  = audit_logs db ++
    [mk_audit (next_rowid (seq_audit db) (map a_id (audit_logs db))) user_id
       "UPDATE_PROGRESS" (audit_details subj chap comp status) now].
Proof.
  unfold after_change, after_audit. cbn [audit_logs with_audit_logs].
  destruct (after_upsert_audit_logs now user_id subj chap comp status db) as [-> [-> _]].
  reflexivity.
Qed.

Lemma view_subjects_cell_true (user_id : Z) (subj chap comp : string)
    (picked : option string) (w : world) :
  fst (view_subjects_cell user_id subj chap comp picked w) = Ok true ->
  exists new_status,
    snd (view_subjects_cell user_id subj chap comp picked w)
    = with_store (after_change (clock w) user_id subj chap comp new_status (store w)) w.
Proof.
  destruct (view_subjects_cell_run user_id subj chap comp picked w) as [idx [_ ->]].
  destruct (_ =? _)%string; cbn [fst snd]; [discriminate | eauto].
Qed.

(** X10: the select boxes of the subject page have pairwise distinct keys, and
    a run of the page never raises and performs at most one status change.
    Either every cell of the catalog finds its select box showing the current
    status and the run leaves the world as it was, or the run is exactly the
    write of one cell of the catalog, after which it stops for a rerun, and
    the audit log has gained the one row of that write. *)
Theorem view_subjects_one_write (user_id : Z) (picks : string -> option string)
    (w : world) :
  NoDup (map (fun c : cell => widget_key (fst (fst c)) (snd (fst c)) (snd c))
           (cells DEFAULT_SUBJECTS)) /\
  ((view_subjects DEFAULT_SUBJECTS user_id picks w = (Ok false, w) /\
    forall subj chap comp, In (subj, chap, comp) (cells DEFAULT_SUBJECTS) ->
      view_subjects_cell user_id subj chap comp (picks (widget_key subj chap comp)) w
      = (Ok false, w)) \/
   (exists subj chap comp new_status,
      In (subj, chap, comp) (cells DEFAULT_SUBJECTS) /\
      view_subjects DEFAULT_SUBJECTS user_id picks w
      = (Ok true,
         snd (view_subjects_cell user_id subj chap comp
                (picks (widget_key subj chap comp)) w)) /\
      audit_logs (store (snd (view_subjects DEFAULT_SUBJECTS user_id picks w)))
      = audit_logs (store w) ++
        [mk_audit (next_rowid (seq_audit (store w)) (map a_id (audit_logs (store w))))
           user_id "UPDATE_PROGRESS"
           (subj ++ " > " ++ chap ++ " > " ++ comp ++ " : " ++ new_status)%string
           (clock w)])).
Proof.
  split.
  { rewrite <- default_widget_keys_fixed. apply NoDup_nodup. }
  unfold view_subjects.
  destruct (run_cells_run user_id picks (cells DEFAULT_SUBJECTS) w)
    as [Hnone | [subj [chap [comp [Hin [Htrue Hrun]]]]]]; [now left|].
  right. destruct (view_subjects_cell_true _ _ _ _ _ _ Htrue) as [new_status Hworld].
  exists subj, chap, comp, new_status. split; [exact Hin|]. split; [exact Hrun|].
  rewrite Hrun. cbn [snd]. rewrite Hworld. cbn [store with_store].
  apply after_change_audit_logs.
Qed.

(** ** The admin's form *)

(** X11: submitting the form with a password within passlib's size limit creates
    the account exactly when the user name is not taken (the form checks
    nothing else).  Then one user row is added, with the hashed password, and
    one CREATE_USER audit row under the admin's id, and the page reports
    success.  When the name is taken the page reports the error and no table
    changes; the connection of the failed insert stays open.  With a password
    over the size limit the hashing raises, nothing catches it, and nothing is
    written.  Without a submit nothing happens. *)
Theorem view_admin_create_outcome {P : Passlib} (admin_id : Z)
    (salt new_user new_pass role : string) (w : world) :
  (char_length new_pass <= MAX_PASSWORD_SIZE ->
   existsb (has_username new_user) (users (store w)) = false ->
   exists w',
     view_admin_create admin_id salt new_user new_pass role true w
     = (Ok (Some (Success ("Utilisateur " ++ new_user ++ " créé avec succès !")%string)), w') /\
     users (store w')
     = users (store w) ++
       [mk_user (next_rowid (seq_users (store w)) (map u_id (users (store w))))
          new_user (pbkdf2_sha256_hash salt new_pass) role (clock w)] /\
     audit_logs (store w')
     = audit_logs (store w) ++
       [mk_audit (next_rowid (seq_audit (store w)) (map a_id (audit_logs (store w))))
          admin_id "CREATE_USER"
          ("Created user " ++ new_user ++ " (" ++ role ++ ")")%string (clock w)] /\
     progress (store w') = progress (store w) /\
     open_connections w' = open_connections w) /\
  (char_length new_pass <= MAX_PASSWORD_SIZE ->
   existsb (has_username new_user) (users (store w)) = true ->
   exists w',
     view_admin_create admin_id salt new_user new_pass role true w
     = (Ok (Some (Error "Erreur : Ce nom d'utilisateur existe déjà.")), w') /\
     store w' = store w /\
     open_connections w' = S (open_connections w)) /\
  (MAX_PASSWORD_SIZE < char_length new_pass ->
   view_admin_create admin_id salt new_user new_pass role true w
   = (Raise PasswordSizeError, w)) /\
  view_admin_create admin_id salt new_user new_pass role false w = (Ok None, w).
Proof.
  unfold view_admin_create, bind. rewrite create_user_run.
  split; [|split; [|split; [|reflexivity]]].
  - intros Hsize Htaken. rewrite (proj2 (within_limit new_pass) Hsize), Htaken.
    rewrite log_audit_run. eexists. split; [reflexivity|].
    cbn. repeat split.
  - intros Hsize Htaken. rewrite (proj2 (within_limit new_pass) Hsize), Htaken.
    eexists. split; [reflexivity|]. cbn. split; reflexivity.
  - intros Hsize. unfold too_long. now rewrite (proj2 (Z.ltb_lt _ _) Hsize).
Qed.

Lemma view_admin_create_outcome_witness :
  (exists w',
     view_admin_create (P := demo_passlib) 1 "s1" "admin" "secret" "student" true
       seeded_world
     = (Ok (Some (Error "Erreur : Ce nom d'utilisateur existe déjà.")), w') /\
     store w' = store seeded_world /\
     open_connections w' = S (open_connections seeded_world)) /\
  view_admin_create (P := demo_passlib) 1 "s1" "amina" oversize_password "student" true
    seeded_world
  = (Raise PasswordSizeError, seeded_world).
Proof.
  destruct (view_admin_create_outcome (P := demo_passlib) 1 "s1" "admin" "secret" "student"
              seeded_world) as [_ [Htaken _]].
  destruct (view_admin_create_outcome (P := demo_passlib) 1 "s1" "amina" oversize_password
              "student" seeded_world) as [_ [_ [Hlong _]]].
  split.
  - apply Htaken; [vm_compute; discriminate | reflexivity].
  - apply Hlong. vm_compute. reflexivity.
Defined.

(** ** Routing *)

(** X12: the admin page is shown only to a session whose role is "admin", whatever
    the menu returns.  When the selection is one of the options the sidebar
    offered for the role, routing always shows a page, and the "unauthorised"
    branch is never taken. *)
Theorem route_admin_only (role selected : string) :
  (route role selected = AdminPage -> role = "admin" /\ selected = "Admin Panel") /\
  (In selected (menu_options role) ->
   route role selected <> Unauthorized /\ route role selected <> NoPage) /\
  (role <> "admin" -> ~ In "Admin Panel" (menu_options role)).
Proof.
  unfold route, menu_options.
  split; [|split].
  - destruct (selected =? "Dashboard")%string; [discriminate|].
    destruct (selected =? "Matières")%string; [discriminate|].
    destruct (String.eqb_spec selected "Admin Panel") as [Hsel|]; [|discriminate].
    destruct (String.eqb_spec role "admin") as [Hrole|]; [|discriminate].
    intros _. now split.
  - intros Hin. apply in_app_or in Hin. destruct Hin as [[<-|[<-|[]]]|Hin].
    + cbn. split; discriminate.
    + cbn. split; discriminate.
    + destruct (role =? "admin")%string; [|contradiction].
      destruct Hin as [<-|[]]. cbn. split; discriminate.
  - intros Hrole Hin. apply in_app_or in Hin.
    destruct Hin as [[Hin|[Hin|[]]]|Hin]; try discriminate.
    destruct (String.eqb_spec role "admin") as [Heq|_]; [contradiction|contradiction].
Qed.

Lemma route_admin_only_witness :
  route "student" "Matières" <> Unauthorized /\ route "student" "Matières" <> NoPage.
Proof.
  destruct (route_admin_only "student" "Matières") as [_ [Hshown _]].
  apply Hshown. cbn. auto.
Defined.

(** ** What the pages keep true *)

Lemma upsert_rows (Q : progress_row -> Prop) (now : timestamp) (fresh user_id : Z)
    (subj chap comp status : string) (table : list progress_row) :
  (forall r, In r table -> Q r) ->
  Q (mk_progress fresh user_id subj chap comp status now) ->
  (forall r, Q r ->
     Q (mk_progress (p_id r) (p_user_id r) (p_subject r) (p_chapter_name r)
          (p_component r) status now)) ->
  forall r, In r (upsert now fresh user_id subj chap comp status table) -> Q r.
Proof.
  intros Hall Hnew Hupd.
  induction table as [|a rest IH]; cbn [upsert]; intros r Hin.
  - destruct Hin as [<-|[]]. exact Hnew.
  - destruct (has_key user_id subj chap comp a).
    + destruct Hin as [<-|Hin].
      * apply Hupd. apply Hall. now left.
      * apply Hall. now right.
    + destruct Hin as [<-|Hin].
      * apply Hall. now left.
      * apply IH; [|exact Hin]. intros x Hx. apply Hall. now right.
Qed.

Lemma view_subjects_cell_written (user_id : Z) (subj chap comp : string)
    (picked : option string) (w : world) :
  (forall choice, picked = Some choice -> In choice STATUS_OPTS) ->
  fst (view_subjects_cell user_id subj chap comp picked w) = Ok true ->
  exists new_status,
    In new_status STATUS_OPTS /\
    snd (view_subjects_cell user_id subj chap comp picked w)
    = with_store (after_change (clock w) user_id subj chap comp new_status (store w)) w.
Proof.
  intros Hpicked.
  destruct (view_subjects_cell_run user_id subj chap comp picked w) as [idx [Hidx ->]].
  destruct (_ =? _)%string; cbn [fst snd]; [discriminate|]. intros _.
  exists (selectbox STATUS_OPTS idx picked). split; [|reflexivity].
  destruct picked as [choice|]; cbn [selectbox]; [now apply Hpicked|].
  destruct (current_idx_total (stored_status user_id subj chap comp (progress (store w))))
    as [idx' [Hidx' Hlt]].
  rewrite Hidx in Hidx'. injection Hidx' as <-.
  apply nth_In. exact Hlt.
Qed.

Lemma after_change_rows (subjects : catalog) (now : timestamp) (user_id : Z)
    (subj chap comp status : string) (db : database) :
  progress_ids_distinct db ->
  In (subj, chap, comp) (cells subjects) -> In status STATUS_OPTS ->
  rows_in_catalog subjects db /\ statuses_recognised db ->
  rows_in_catalog subjects (after_change now user_id subj chap comp status db) /\
  statuses_recognised (after_change now user_id subj chap comp status db).
Proof.
  intros Hids Hcell Hstatus [Hcat Hrec].
  unfold rows_in_catalog, statuses_recognised, after_change.
  rewrite after_audit_progress, (after_upsert_progress _ _ _ _ _ _ _ Hids).
  split.
  - apply upsert_rows; [exact Hcat | exact Hcell | auto].
  - apply upsert_rows; [exact Hrec | exact Hstatus | auto].
Qed.

Lemma page_invariant_users (db db' : database) :
  progress db' = progress db -> usernames_unique db' ->
  page_invariant db -> page_invariant db'.
Proof.
  unfold page_invariant, progress_ids_distinct, one_row_per_key, rows_in_catalog,
    statuses_recognised.
  intros -> Hnames [[Hids [_ Hkeys]] [Hcat Hrec]]. tauto.
Qed.

Lemma page_invariant_same (db db' : database) :
  progress db' = progress db -> users db' = users db ->
  page_invariant db -> page_invariant db'.
Proof.
  intros Hp Hu Hinv. apply (page_invariant_users db db' Hp); [|exact Hinv].
  unfold usernames_unique. rewrite Hu. apply Hinv.
Qed.

Lemma usernames_unique_add (username password role : string) (id : Z) (now : timestamp)
    (us : list user_row) :
  NoDup (map u_username us) ->
  existsb (has_username username) us = false ->
  NoDup (map u_username (us ++ [mk_user id username password role now])).
Proof.
  intros Hnd Hfree. rewrite map_app. cbn [map u_username].
  apply NoDup_app; [exact Hnd | repeat constructor; intros [] |].
  intros x Hx [<-|[]]. exact (has_username_in _ _ Hfree Hx).
Qed.

Lemma page_reachable_invariant {P : Passlib} (w : world) :
  page_reachable w -> page_invariant (store w).
Proof.
  induction 1 as [t | t w _ IH | salt w _ IH | username password w _ IH
                  | user_id w _ IH | user_id picks w Hpicks _ IH
                  | admin_id salt new_user new_pass role submit w _ IH].
  - cbn. unfold page_invariant, progress_ids_distinct, usernames_unique, one_row_per_key,
      rows_in_catalog, statuses_recognised. cbn.
    repeat split; try constructor; try contradiction. lia.
  - exact IH.
  - destruct (init_db_run salt w) as [-> | [Hempty ->]]; [exact IH|].
    apply (page_invariant_users (store w)); [reflexivity | | exact IH].
    unfold usernames_unique. cbn. constructor; [intros [] | constructor].
  - rewrite login_user_run. exact IH.
  - rewrite global_rate_run. exact IH.
  - unfold view_subjects.
    destruct (run_cells_run user_id picks (cells DEFAULT_SUBJECTS) w)
      as [[-> _] | [subj [chap [comp [Hin [Htrue ->]]]]]]; [exact IH|].
    cbn [snd].
    destruct (view_subjects_cell_written user_id subj chap comp
                (picks (widget_key subj chap comp)) w
                (Hpicks (widget_key subj chap comp)) Htrue) as [new_status [Hnew ->]].
    cbn [store with_store]. destruct IH as [Hschema Hrows].
    split.
    + now apply after_change_invariants.
    + apply after_change_rows; [apply Hschema | exact Hin | exact Hnew | exact Hrows].
  - unfold view_admin_create. destruct submit; [|exact IH].
    unfold bind. rewrite create_user_run. destruct (too_long new_pass); [exact IH|].
    destruct (existsb (has_username new_user) (users (store w))) eqn:Htaken; [exact IH|].
    rewrite log_audit_run. cbn [snd store with_store].
    apply (page_invariant_users (store w)); [reflexivity | | exact IH].
    unfold usernames_unique. cbn [users after_audit with_audit_logs with_users].
    apply usernames_unique_add; [apply IH | exact Htaken].
Qed.

Lemma paged_world_reachable : page_reachable (P := demo_passlib) paged_world.
Proof.
  apply (pages_subjects 1 one_pick seeded_world).
  - intros key choice. unfold one_pick.
    destruct (key =? _)%string; [|discriminate].
    intros Hpick. injection Hpick as <-. cbn. auto.
  - apply (pages_init_db "salt0" fresh_world). apply (pages_start 1700000000).
Qed.

(** X13: in every world the pages lead to from an empty file, each progress row is
    about a cell of the catalog and holds one of the three statuses, no
    composite key has two rows, and primary keys and user names are unique. *)
Theorem pages_keep_the_store_in_shape {P : Passlib} (w : world) :
  page_reachable w ->
  rows_in_catalog DEFAULT_SUBJECTS (store w) /\ statuses_recognised (store w) /\
  one_row_per_key (store w) /\ progress_ids_distinct (store w) /\
  usernames_unique (store w).
Proof.
  intros Hreach. destruct (page_reachable_invariant w Hreach) as [[Hids [Hnames Hkeys]] [Hcat Hrec]].
  repeat split; assumption.
Qed.

Lemma pages_keep_the_store_in_shape_witness :
  rows_in_catalog DEFAULT_SUBJECTS (store paged_world) /\
  statuses_recognised (store paged_world) /\
  one_row_per_key (store paged_world) /\ progress_ids_distinct (store paged_world) /\
  usernames_unique (store paged_world).
Proof.
  exact (pages_keep_the_store_in_shape (P := demo_passlib) paged_world paged_world_reachable).
Defined.

(** ** Viewing without touching *)

Lemma untouched_recognised (user_id : Z) (subj chap comp : string) (w : world) :
  contains (stored_status user_id subj chap comp (progress (store w))) STATUS_OPTS = true ->
  view_subjects_cell user_id subj chap comp None w = (Ok false, w).
Proof.
  intros Hin.
  destruct (view_subjects_cell_run user_id subj chap comp None w) as [idx [Hidx ->]].
  unfold current_idx in Hidx. rewrite Hin in Hidx. cbn [selectbox].
  rewrite (index_nth _ _ _ Hidx). now rewrite String.eqb_refl.
Qed.

Lemma stored_status_recognised (user_id : Z) (subj chap comp : string) (db : database) :
  statuses_recognised db ->
  contains (stored_status user_id subj chap comp (progress db)) STATUS_OPTS = true.
Proof.
  intros Hrec. unfold stored_status.
  destruct (find (has_key user_id subj chap comp) (progress db)) as [r|] eqn:Hfind;
    [|reflexivity].
  apply find_some in Hfind. destruct Hfind as [Hin _].
  unfold contains. apply existsb_exists. exists (p_status r).
  split; [now apply Hrec | apply String.eqb_refl].
Qed.

(** X14: in every world the pages lead to from an empty file, a visit of the subject
    page in which no select box is touched writes nothing, for any user. *)
Theorem viewing_subjects_writes_nothing {P : Passlib} (user_id : Z) (w : world) :
  page_reachable w ->
  view_subjects DEFAULT_SUBJECTS user_id (fun _ => None) w = (Ok false, w).
Proof.
  intros Hreach. destruct (page_reachable_invariant w Hreach) as [_ [_ Hrec]].
  unfold view_subjects.
  destruct (run_cells_run user_id (fun _ => None) (cells DEFAULT_SUBJECTS) w)
    as [[Hrun _] | [subj [chap [comp [_ [Htrue _]]]]]]; [exact Hrun|].
  rewrite (untouched_recognised user_id subj chap comp w) in Htrue.
  - discriminate.
  - now apply stored_status_recognised.
Qed.

Lemma viewing_subjects_writes_nothing_witness :
  view_subjects DEFAULT_SUBJECTS 1 (fun _ => None) paged_world = (Ok false, paged_world).
Proof.
  exact (viewing_subjects_writes_nothing (P := demo_passlib) 1 paged_world
           paged_world_reachable).
Defined.

(** ** The rate stays within 0 and 100 *)

Lemma count_fait_bounds (user_id : Z) (table : list progress_row) :
  0 <= count_fait user_id table
  <= Z.of_nat (List.length (filter (fun r => p_user_id r =? user_id) table)).
Proof.
  induction table as [|r rest IH]; cbn [count_fait filter List.length]; [lia|].
  destruct (p_user_id r =? user_id); cbn [andb List.length];
    [destruct (p_status r =? "Fait")%string|]; lia.
Qed.

Lemma has_key_cell_of (r : progress_row) :
  has_key (p_user_id r) (p_subject r) (p_chapter_name r) (p_component r) r = true.
Proof. unfold has_key. now rewrite Z.eqb_refl, !String.eqb_refl. Qed.

Lemma user_cells_distinct (user_id : Z) (table : list progress_row) :
  (forall subj chap comp,
     (List.length (entries_for user_id subj chap comp table) <= 1)%nat) ->
  NoDup (map cell_of (filter (fun r => p_user_id r =? user_id) table)).
Proof.
  induction table as [|a rest IH]; cbn [filter map]; intros Hone; [constructor|].
  assert (Hrest : forall subj chap comp,
             (List.length (entries_for user_id subj chap comp rest) <= 1)%nat).
  { intros subj chap comp. specialize (Hone subj chap comp).
    unfold entries_for in *. cbn [filter] in Hone.
    destruct (has_key user_id subj chap comp a); cbn [List.length] in Hone; lia. }
  destruct (Z.eqb_spec (p_user_id a) user_id) as [Huser|_]; [|now apply IH].
  cbn [map]. constructor; [|now apply IH].
  intros Hdup. apply in_map_iff in Hdup. destruct Hdup as [r [Hcell Hr]].
  apply filter_In in Hr. destruct Hr as [Hin Hu]. apply Z.eqb_eq in Hu.
  specialize (Hone (p_subject a) (p_chapter_name a) (p_component a)).
  unfold entries_for in Hone. cbn [filter] in Hone.
  rewrite <- Huser in Hone at 1. rewrite has_key_cell_of in Hone.
  cbn [List.length] in Hone.
  assert (Hkey : has_key user_id (p_subject a) (p_chapter_name a) (p_component a) r = true).
  { unfold cell_of in Hcell. injection Hcell as Hs Hc Hk.
    rewrite <- Hu, <- Hs, <- Hc, <- Hk. apply has_key_cell_of. }
  assert (Hfound : In r (filter (has_key user_id (p_subject a) (p_chapter_name a)
                                   (p_component a)) rest))
    by (apply filter_In; now split).
  destruct (filter (has_key user_id (p_subject a) (p_chapter_name a) (p_component a)) rest);
    [contradiction | cbn [List.length] in Hone; lia].
Qed.

Lemma rates_of_27_in_range :
  forallb (fun n => rate_in_range (rate_of (Z.of_nat n) 27)) (seq 0 28) = true.
Proof. vm_compute. reflexivity. Qed.

(** X15: in every world the pages lead to from an empty file, no user has more rows
    with status "Fait" than the catalog has slots, and the completion rate
    the dashboard computes is a finite number between 0 and 100. *)
Theorem completion_rate_in_range {P : Passlib} (user_id : Z) (w : world) :
  page_reachable w ->
  0 <= count_fait user_id (progress (store w)) <= total_ops DEFAULT_SUBJECTS /\
  exists rate,
    fst (global_rate DEFAULT_SUBJECTS user_id w) = Ok rate /\
    rate_in_range rate = true.
Proof.
  intros Hreach.
  destruct (page_reachable_invariant w Hreach) as [[_ [_ Hkeys]] [Hcat _]].
  assert (Hbound : 0 <= count_fait user_id (progress (store w)) <= 27).
  { destruct (count_fait_bounds user_id (progress (store w))) as [Hlow Hhigh].
    split; [exact Hlow|].
    assert (Hlen : (List.length (map cell_of
                      (filter (fun r => (p_user_id r =? user_id)%Z) (progress (store w))))
                    <= List.length (cells DEFAULT_SUBJECTS))%nat).
    { apply NoDup_incl_length.
      - apply user_cells_distinct. intros subj chap comp. apply Hkeys.
      - intros c Hc. apply in_map_iff in Hc. destruct Hc as [r [<- Hr]].
        apply filter_In in Hr. apply Hcat. apply Hr. }
    rewrite length_map in Hlen.
    change (List.length (cells DEFAULT_SUBJECTS)) with 27%nat in Hlen. lia. }
  split; [exact Hbound|].
  rewrite global_rate_run. cbn [fst]. eexists. split; [reflexivity|].
  change (total_ops DEFAULT_SUBJECTS) with 27.
  pose proof rates_of_27_in_range as Hall. rewrite forallb_forall in Hall.
  specialize (Hall (Z.to_nat (count_fait user_id (progress (store w))))).
  rewrite Z2Nat.id in Hall by lia. apply Hall. apply in_seq. lia.
Qed.

Lemma completion_rate_in_range_witness :
  0 <= count_fait 1 (progress (store paged_world)) <= total_ops DEFAULT_SUBJECTS /\
  exists rate,
    fst (global_rate DEFAULT_SUBJECTS 1 paged_world) = Ok rate /\
    rate_in_range rate = true.
Proof.
  exact (completion_rate_in_range (P := demo_passlib) 1 paged_world paged_world_reachable).
Defined.

(** ** Accounts last *)

Lemma first_match_app {A : Type} (p : A -> bool) (l added : list A) (a : A) (rest : list A) :
  filter p l = a :: rest -> exists rest', filter p (l ++ added) = a :: rest'.
Proof. intros Hl. rewrite filter_app, Hl. cbn [app]. eauto. Qed.

(** X16: accounts are permanent: a user name and password that log in at some point
    log in, with the same record, after any further history of calls, since
    no call deletes a user row or rewrites a password or role. *)
Theorem login_lasts {P : Passlib} (username password : string) (s : session_user)
    (w w' : world) :
  steps w w' ->
  fst (login_user username password w) = Ok (Some s) ->
  fst (login_user username password w') = Ok (Some s).
Proof.
  induction 1 as [w | w w1 w2 _ IH Hstep]; [auto|].
  intros Hlogin. specialize (IH Hlogin). clear Hlogin.
  destruct (step_grows _ _ Hstep) as [[added Husers] _].
  rewrite login_user_run in *. cbn [fst] in *. rewrite Husers.
  destruct (filter (has_username username) (users (store w1))) as [|r rest] eqn:Hrows;
    [discriminate|].
  destruct (first_match_app _ _ added _ _ Hrows) as [rest' ->]. exact IH.
Qed.

Lemma login_lasts_witness :
  fst (login_user (P := demo_passlib) "admin" "admin123" studied_world)
  = Ok (Some (mk_session_user 1 "admin" "admin")).
Proof.
  apply (login_lasts (P := demo_passlib) "admin" "admin123"
           (mk_session_user 1 "admin" "admin") seeded_world studied_world).
  - apply (steps_more seeded_world seeded_world studied_world); [apply steps_none|].
    exact (step_view_subjects_cell 1 "Physique" "Thermodynamique" "TD" (Some "En cours")
             seeded_world).
  - vm_compute. reflexivity.
Defined.

(** ** The audit log accounts for every stored status *)

Lemma upsert_rows_of_key (Q : progress_row -> Prop) (now : timestamp) (fresh user_id : Z)
    (subj chap comp status : string) (table : list progress_row) :
  (forall r, In r table -> Q r) ->
  Q (mk_progress fresh user_id subj chap comp status now) ->
  (forall r, has_key user_id subj chap comp r = true ->
     Q (mk_progress (p_id r) (p_user_id r) (p_subject r) (p_chapter_name r)
          (p_component r) status now)) ->
  forall r, In r (upsert now fresh user_id subj chap comp status table) -> Q r.
Proof.
  intros Hall Hnew Hupd.
  induction table as [|a rest IH]; cbn [upsert]; intros r Hin.
  - destruct Hin as [<-|[]]. exact Hnew.
  - destruct (has_key user_id subj chap comp a) eqn:Hkey.
    + destruct Hin as [<-|Hin]; [now apply Hupd | apply Hall; now right].
    + destruct Hin as [<-|Hin]; [apply Hall; now left|].
      apply IH; [|exact Hin]. intros x Hx. apply Hall. now right.
Qed.

Lemma has_key_fields (user_id : Z) (subj chap comp : string) (r : progress_row) :
  has_key user_id subj chap comp r = true ->
  p_user_id r = user_id /\ p_subject r = subj /\ p_chapter_name r = chap /\
  p_component r = comp.
Proof.
  unfold has_key. intros Hkey.
  apply andb_true_iff in Hkey. destruct Hkey as [Hkey Hk].
  apply andb_true_iff in Hkey. destruct Hkey as [Hkey Hc].
  apply andb_true_iff in Hkey. destruct Hkey as [Hu Hs].
  apply Z.eqb_eq in Hu. apply String.eqb_eq in Hs, Hc, Hk. tauto.
Qed.

Lemma accounted_for_more (logs added : list audit_row) (r : progress_row) :
  accounted_for logs r -> accounted_for (logs ++ added) r.
Proof.
  intros [a [Hin Ha]]. exists a. split; [apply in_or_app; now left | exact Ha].
Qed.

Lemma after_change_accounted (now : timestamp) (user_id : Z)
    (subj chap comp status : string) (db : database) :
  progress_ids_distinct db ->
  (forall r, In r (progress db) -> accounted_for (audit_logs db) r) ->
  forall r, In r (progress (after_change now user_id subj chap comp status db)) ->
    accounted_for (audit_logs (after_change now user_id subj chap comp status db)) r.
Proof.
  intros Hids Hall. rewrite after_change_audit_logs.
  unfold after_change. rewrite after_audit_progress, (after_upsert_progress _ _ _ _ _ _ _ Hids).
  apply upsert_rows_of_key.
  - intros r Hr. apply accounted_for_more. now apply Hall.
  - eexists. split; [apply in_or_app; right; now left|]. cbn. auto.
  - intros r Hkey. destruct (has_key_fields _ _ _ _ _ Hkey) as [-> [-> [-> ->]]].
    eexists. split; [apply in_or_app; right; now left|]. cbn. auto.
Qed.

(** X17: in every world the pages lead to from an empty file, the audit log
    accounts for the present status of every progress row: it holds an
    UPDATE_PROGRESS row of the row's user whose detail is
    "subject > chapter > component : status" for that row. *)
Theorem audit_accounts_for_statuses {P : Passlib} (w : world) :
  page_reachable w ->
  forall r, In r (progress (store w)) -> accounted_for (audit_logs (store w)) r.
Proof.
  induction 1 as [t | t w _ IH | salt w Hreach IH | username password w _ IH
                  | user_id w _ IH | user_id picks w Hpicks Hreach IH
                  | admin_id salt new_user new_pass role submit w _ IH].
  - intros r [].
  - exact IH.
  - destruct (init_db_run salt w) as [-> | [_ ->]]; exact IH.
  - rewrite login_user_run. exact IH.
  - rewrite global_rate_run. exact IH.
  - unfold view_subjects.
    destruct (run_cells_run user_id picks (cells DEFAULT_SUBJECTS) w)
      as [[-> _] | [subj [chap [comp [_ [Htrue ->]]]]]]; [exact IH|].
    cbn [snd]. destruct (view_subjects_cell_true _ _ _ _ _ _ Htrue) as [new_status ->].
    cbn [store with_store]. apply after_change_accounted; [|exact IH].
    apply (page_reachable_invariant w Hreach).
  - unfold view_admin_create. destruct submit; [|exact IH].
    unfold bind. rewrite create_user_run. destruct (too_long new_pass); [exact IH|].
    destruct (existsb (has_username new_user) (users (store w))); [exact IH|].
    rewrite log_audit_run. cbn [snd store with_store]. intros r Hr.
    apply (accounted_for_more (audit_logs (store w))). apply IH. exact Hr.
Qed.

Lemma audit_accounts_for_statuses_witness :
  accounted_for (audit_logs (store paged_world))
    (mk_progress 1 1 "Physique" "Thermodynamique" "TD" "Fait" 1700000000).
Proof.
  apply (audit_accounts_for_statuses (P := demo_passlib) paged_world paged_world_reachable).
  vm_compute. auto.
Defined.
